(** * liteflow: schema versioning and named statements over SQLite

    A shallow embedding of [liteflow.go] (package [liteflow]): the migration
    runner ([Version], [Upgrade], [Downgrade], [runFileAndSetVersion]), the
    statement loader ([loadStatements], [loadAllStatements]), the statement
    cache ([named], [Exec], [Query], [QueryRow]) and the constructor [New].

    Go values are modelled as follows.
    - [string] is a byte string ([String.string], one [ascii] per byte).
    - [int] is [Z].  Every version the code computes is a stored
      [user_version] plus or minus one, or a key of the version index;
      [user_version] is a 32-bit field of the database header, so these
      sums do not wrap in Go's 64-bit [int].
    - [map[int]string] and [map[string]*sql.Stmt] are [gmap]s.
    - [error] is the inductive [error]: the sentinel errors of the standard
      library, opaque driver errors, and the [fmt.Errorf] wrappers of this
      package with their arguments kept apart.
    - the receiver [db *DB] is mutated in place; here every method takes the
      [DB] and returns the new one next to its results.
    - a nil pointer is [None]; dereferencing it is the outcome [Panicked].

    The wrappers [Begin], [BeginTx] and the methods of [liteflow.Tx], which
    resolve names through [DB.named], are not part of the embedding. *)

From Stdlib Require Import ZArith NArith String Ascii List Bool Lia.
From stdpp Require Import base option gmap strings list fin_maps fin_sets.
Import ListNotations.

Local Open Scope string_scope.
Local Open Scope Z_scope.

(** ** The parts of Go's standard library that the package calls *)

Module GoStrings.

Definition byte_of (c : ascii) : N := N_of_ascii c.

Definition in_range (lo hi : N) (c : ascii) : bool :=
  ((lo <=? byte_of c) && (byte_of c <=? hi))%N.

Definition is_byte (n : N) (c : ascii) : bool := (byte_of c =? n)%N.

(** [strings.asciiSpace]: tab, newline, vertical tab, form feed, carriage
    return, space. *)
Definition asciiSpace (c : ascii) : bool :=
  in_range 9 13 c || is_byte 32 c.

(** The class [\s] of Go's [regexp] (RE2): tab, newline, form feed,
    carriage return, space.  Vertical tab is not in it. *)
Definition rx_space (c : ascii) : bool :=
  is_byte 9 c || is_byte 10 c || is_byte 12 c || is_byte 13 c || is_byte 32 c.

Definition rx_digit (c : ascii) : bool := in_range 48 57 c.

(** [strings.TrimSpace] removes the leading and trailing runes for which
    [unicode.IsSpace] holds.  Besides the six ASCII ones these are U+0085,
    U+00A0, U+1680, U+2000..U+200A, U+2028, U+2029, U+202F, U+205F and
    U+3000; [trimLeft] recognises their UTF-8 encodings at the front. *)
Fixpoint trimLeft (s : string) : string :=
  match s with
  | EmptyString => EmptyString
  | String c r =>
      if asciiSpace c then trimLeft r
      else
        match r with
        | String d r2 =>
            if is_byte 194 c && (is_byte 133 d || is_byte 160 d)
            then trimLeft r2
            else
              match r2 with
              | String e r3 =>
                  if (is_byte 225 c && is_byte 154 d && is_byte 128 e)
                     || (is_byte 226 c && is_byte 128 d
                         && (in_range 128 138 e || is_byte 168 e
                             || is_byte 169 e || is_byte 175 e))
                     || (is_byte 226 c && is_byte 129 d && is_byte 159 e)
                     || (is_byte 227 c && is_byte 128 d && is_byte 128 e)
                  then trimLeft r3
                  else s
              | EmptyString => s
              end
        | EmptyString => s
        end
  end.

(** The same on the reversed string: the encodings are read last byte
    first, which is how [utf8.DecodeLastRuneInString] finds them. *)
Fixpoint trimLeftRev (s : string) : string :=
  match s with
  | EmptyString => EmptyString
  | String e r =>
      if asciiSpace e then trimLeftRev r
      else
        match r with
        | String d r2 =>
            if is_byte 194 d && (is_byte 133 e || is_byte 160 e)
            then trimLeftRev r2
            else
              match r2 with
              | String c r3 =>
                  if (is_byte 225 c && is_byte 154 d && is_byte 128 e)
                     || (is_byte 226 c && is_byte 128 d
                         && (in_range 128 138 e || is_byte 168 e
                             || is_byte 169 e || is_byte 175 e))
                     || (is_byte 226 c && is_byte 129 d && is_byte 159 e)
                     || (is_byte 227 c && is_byte 128 d && is_byte 128 e)
                  then trimLeftRev r3
                  else s
              | EmptyString => s
              end
        | EmptyString => s
        end
  end.

Fixpoint rev_append (s acc : string) : string :=
  match s with
  | EmptyString => acc
  | String c r => rev_append r (String c acc)
  end.

Definition rev (s : string) : string := rev_append s EmptyString.

Definition TrimSpace (s : string) : string :=
  rev (trimLeftRev (rev (trimLeft s))).

(** [strings.HasPrefix] with the rest of the string on success. *)
Fixpoint cutPrefix (p s : string) : option string :=
  match p with
  | EmptyString => Some s
  | String a p' =>
      match s with
      | String b s' => if Ascii.eqb a b then cutPrefix p' s' else None
      | EmptyString => None
      end
  end.

Definition HasPrefix (s p : string) : bool :=
  match cutPrefix p s with Some _ => true | None => false end.

Definition HasSuffix (s p : string) : bool := HasPrefix (rev s) (rev p).

(** [strings.TrimSuffix]. *)
Definition TrimSuffix (s p : string) : string :=
  match cutPrefix (rev p) (rev s) with
  | Some r => rev r
  | None => s
  end.

(** [strings.Contains]. *)
Fixpoint Contains (s p : string) : bool :=
  HasPrefix s p ||
  match s with
  | EmptyString => false
  | String _ r => Contains r p
  end.

(** [strings.Join]. *)
Fixpoint Join (l : list string) (sep : string) : string :=
  match l with
  | [] => EmptyString
  | [x] => x
  | x :: r => x ++ sep ++ Join r sep
  end.

Fixpoint dropWhile (f : ascii -> bool) (s : string) : string :=
  match s with
  | EmptyString => EmptyString
  | String c r => if f c then dropWhile f r else s
  end.

Fixpoint takeWhile (f : ascii -> bool) (s : string) : string :=
  match s with
  | EmptyString => EmptyString
  | String c r => if f c then String c (takeWhile f r) else EmptyString
  end.

(** ASCII lower case, enough for the case-insensitive literal [name:]:
    none of n, a, m, e has a non-ASCII case variant. *)
Definition lower (c : ascii) : ascii :=
  if in_range 65 90 c then ascii_of_N (byte_of c + 32) else c.

Fixpoint cutPrefixFold (p s : string) : option string :=
  match p with
  | EmptyString => Some s
  | String a p' =>
      match s with
      | String b s' =>
          if Ascii.eqb (lower a) (lower b) then cutPrefixFold p' s' else None
      | EmptyString => None
      end
  end.

End GoStrings.

Module GoRegexp.
Import GoStrings.

(** [rxNameline = regexp.MustCompile(`(?i)^--\s*name:\s*(\S+)`)];
    [FindStringSubmatch] returns the capture [parts[1]] when the line
    matches.  Neither [\s*] can stop early (the next item never matches a
    space), and [\S+] is greedy, so the match is determined. *)
Definition rxNameline_FindStringSubmatch (line : string) : option string :=
  match cutPrefix "--" line with
  | None => None
  | Some r1 =>
      match cutPrefixFold "name:" (dropWhile rx_space r1) with
      | None => None
      | Some r2 =>
          match takeWhile (fun c => negb (rx_space c)) (dropWhile rx_space r2) with
          | EmptyString => None
          | cap => Some cap
          end
      end
  end.

Definition rxNameline_MatchString (line : string) : bool :=
  match rxNameline_FindStringSubmatch line with Some _ => true | None => false end.

(** [rxComment = regexp.MustCompile(`^--`)]. *)
Definition rxComment_MatchString (line : string) : bool := HasPrefix line "--".

(** [regexp.MustCompile(`\d+`).FindString]: the leftmost, longest run of
    ASCII digits, or the empty string. *)
Definition rxVersion_FindString (s : string) : string :=
  takeWhile rx_digit (dropWhile (fun c => negb (rx_digit c)) s).

(** [`\.up\.`] and [`\.down\.`] with [MatchString]. *)
Definition rxUpgrade_MatchString (s : string) : bool := Contains s ".up.".
Definition rxDowngrade_MatchString (s : string) : bool := Contains s ".down.".

End GoRegexp.

Module GoStrconv.
Import GoStrings.

Definition maxInt : Z := 9223372036854775807.

Fixpoint digits_value (s : string) (acc : Z) : Z :=
  match s with
  | EmptyString => acc
  | String c r => digits_value r (10 * acc + (Z.of_N (byte_of c) - 48))
  end.

(** [strconv.Atoi] on a string of decimal digits, as [loadVersions] calls
    it and with the error dropped as there: the empty string gives 0, a
    value out of range gives the largest [int]. *)
Definition Atoi_digits (s : string) : Z :=
  Z.min (digits_value s 0) maxInt.
End GoStrconv.

(** ** Errors *)

(** The format strings of the package's [fmt.Errorf] calls, each with the
    arguments it is given. *)
Inductive msg : Type :=
| MsgNilDB                                   (* non-nil *sql.DB reference required *)
| MsgReadVersionFS                           (* could not read versionFS *)
| MsgReadInitFS                              (* could not read InitFS *)
| MsgReadQueryFS                             (* could not read QueryFS *)
| MsgOpenInit (filename : string)            (* could not open SQL init file '%s' *)
| MsgReadInit (filename : string)            (* could not read SQL init file '%s' *)
| MsgTxInit (filename : string)              (* could not start tx for init file '%s' *)
| MsgRunInit (filename : string)             (* could not run SQL init file '%s' (rolled back) *)
| MsgCommitInit (filename : string)          (* could not commit for init file '%s' *)
| MsgNoQueryFS (name : string)               (* no QueryFS provided, cannot load statement '%s' *)
| MsgOpenFile (fn : string)                  (* could not open file '%s' *)
| MsgPrepare (fn : string) (lno : Z) (queryName : string)
                                             (* [%s:%d] could not prepare '%s' *)
| MsgScan (fn : string) (lno : Z)            (* could not scan %s (reached line %d) *)
| MsgQueryVersion                            (* could not query user_version *)
| MsgOpenSQL (filename : string)             (* could not open SQL file '%s' *)
| MsgReadSQL (filename : string)             (* could not read SQL file '%s' *)
| MsgStartTx (filename : string)             (* could not start tx for file '%s' *)
| MsgRunSQL (filename : string)              (* could not run SQL file '%s *)
| MsgUpdateVersion (version : Z)             (* could not update user_version to %d *)
| MsgCommit (filename : string) (version : Z)
                                             (* could not commit for file %s, version %d *)
| MsgLoadStatement (name : string).          (* could not load statement '%s' *)

(** Go's [error] values as far as the package sees them.  An error of the
    database driver is an opaque leaf [ErrDriver]: the driver's errors are
    taken not to wrap the sentinel errors of [io/fs]. *)
#[local] Set Warnings "-register-all".
Inductive error : Type :=
| ErrNotExist                                (* fs.ErrNotExist *)
| ErrIsDir                                   (* reading a directory *)
| ErrTooLong                                 (* bufio.ErrTooLong *)
| ErrFS (detail : string)                    (* any other file-system error *)
| ErrDriver (code : string)                  (* an error of database/sql or its driver *)
| PathError (op path : string) (err : error) (* *fs.PathError, unwraps to err *)
| Errorf (m : msg)                           (* fmt.Errorf without %w *)
| Errorfw (m : msg) (err : error)            (* fmt.Errorf with ": %w", unwraps to err *)
| ErrJoin (errs : list error).               (* errors.Join of non-nil errors *)
#[local] Set Warnings "register-all".

(** [errors.Is(err, fs.ErrNotExist)]: the sentinel is looked for along the
    [Unwrap] chain, and in every branch of a joined error. *)
Fixpoint errors_Is_NotExist (e : error) : bool :=
  match e with
  | ErrNotExist => true
  | PathError _ _ err => errors_Is_NotExist err
  | Errorfw _ err => errors_Is_NotExist err
  | ErrJoin errs =>
      (fix any (l : list error) : bool :=
         match l with
         | [] => false
         | x :: r => errors_Is_NotExist x || any r
         end) errs
  | _ => false
  end.

(** [errors.Join(errs...)]: nil values are dropped, and the result is nil
    when none is left. *)
Definition errors_Join (errs : list (option error)) : option error :=
  match omap id errs with
  | [] => None
  | l => Some (ErrJoin l)
  end.

(** The result of running a call. *)
Inductive outcome (A : Type) : Type :=
| Returned (a : A)     (* the call returns [a] *)
| Panicked             (* a run-time panic: nil pointer dereference *)
| OutOfFuel.           (* the model's loop bound was reached *)
Arguments Returned {A} a.
Arguments Panicked {A}.
Arguments OutOfFuel {A}.

#[global] Instance outcome_ret : MRet outcome := fun _ a => Returned a.
#[global] Instance outcome_bind : MBind outcome := fun _ _ k x =>
  match x with
  | Returned a => k a
  | Panicked => Panicked
  | OutOfFuel => OutOfFuel
  end.

(** ** The file systems ([io/fs.FS]) and [bufio.Scanner] *)

Inductive Node : Type :=
| NodeDir
| NodeFile (content : string)
| NodeDenied (detail : string).   (* a file that Open refuses *)

(** [fs_nodes] is the top-level directory in the order [fs.ReadDir] lists
    it; [fs_readdir_err] is the error of that listing, if it fails. *)
Record FS : Type := {
  fs_readdir_err : option error;
  fs_nodes : list (string * Node)
}.

Inductive File : Type :=
| FileData (content : string)
| FileDir (name : string).

Fixpoint fs_find (name : string) (l : list (string * Node)) : option Node :=
  match l with
  | [] => None
  | (n, x) :: r => if String.eqb n name then Some x else fs_find name r
  end.

Definition FS_Open (fsys : FS) (name : string) : error + File :=
  match fs_find name (fs_nodes fsys) with
  | None => inl (PathError "open" name ErrNotExist)
  | Some (NodeDenied d) => inl (PathError "open" name (ErrFS d))
  | Some NodeDir => inr (FileDir name)
  | Some (NodeFile c) => inr (FileData c)
  end.

Definition io_ReadAll (f : File) : error + string :=
  match f with
  | FileData c => inr c
  | FileDir n => inl (PathError "read" n ErrIsDir)
  end.

Record DirEntry : Type := { Name : string; IsDir : bool }.

Definition fs_ReadDir (fsys : FS) : error + list DirEntry :=
  match fs_readdir_err fsys with
  | Some e => inl e
  | None =>
      inr (map (fun p => {| Name := fst p;
                            IsDir := match snd p with NodeDir => true | _ => false end |})
               (fs_nodes fsys))
  end.

Module GoBufio.
Import GoStrings.

Definition MaxScanTokenSize : N := 65536.

(** [dropCR]: one trailing carriage return is removed from a line. *)
Definition dropCR (s : string) : string :=
  match rev s with
  | String c r => if is_byte 13 c then rev r else s
  | EmptyString => s
  end.

(** [bufio.ScanLines] over the whole input: the pieces between newlines,
    and the rest after the last newline when it is not empty.  [acc] is
    the current piece, reversed. *)
Fixpoint pieces (s acc : string) : list string :=
  match s with
  | EmptyString =>
      match acc with
      | EmptyString => []
      | _ => [rev acc]
      end
  | String c r =>
      if is_byte 10 c then rev acc :: pieces r EmptyString
      else pieces r (String c acc)
  end.

(** The scanner stops with [ErrTooLong] at a piece that does not fit its
    buffer of [MaxScanTokenSize] bytes. *)
Fixpoint tokens (ps : list string) : list string * option error :=
  match ps with
  | [] => ([], None)
  | p :: r =>
      if (MaxScanTokenSize <=? N.of_nat (String.length p))%N
      then ([], Some ErrTooLong)
      else let '(ls, e) := tokens r in (dropCR p :: ls, e)
  end.

(** All the lines [s.Scan()] / [s.Text()] deliver for a file, and the
    final [s.Err()]. *)
Definition Scan (f : File) : list string * option error :=
  match f with
  | FileData c => tokens (pieces c EmptyString)
  | FileDir n => ([], Some (PathError "read" n ErrIsDir))
  end.
End GoBufio.

(** ** The database connection ([*sql.DB]) *)

(** What the SQLite file holds: the [user_version] of its header, and the
    rest, which only the SQL texts act on. *)
Record Store (Data : Type) : Type := {
  user_version : Z;
  data : Data
}.
Arguments user_version {Data} s.
Arguments data {Data} s.

(** A command passed to [Tx.Exec]: the text of a script, or the text
    [fmt.Sprintf("PRAGMA user_version = %d", version)]. *)
Inductive Cmd : Type :=
| SqlText (content : string)
| PragmaUserVersion (version : Z).

(** The driver, the external collaborator: what a text does to the store,
    and which calls fail.  A failure is given by the driver's error code.
    - [drv_exec content w]: [Tx.Exec] of a script on the working copy [w] of
      its transaction; the text is taken to act inside that transaction.
    - [drv_set_version_err v w]: the failure, if any, of setting the stored
      version to [v].
    - [drv_get_version_err st]: the failure of reading the stored version.
    - [drv_begin_err st], [drv_commit_err st w]: the failures of [Begin]
      and of [Commit] of the working copy [w] over the store [st].
    - [drv_prepare_err query st]: the failure of [Prepare].
    - [drv_stmt query args st]: running a prepared statement. *)
Record Driver (Data : Type) : Type := {
  drv_exec : string -> Store Data -> string + Store Data;
  drv_set_version_err : Z -> Store Data -> option string;
  drv_get_version_err : Store Data -> option string;
  drv_begin_err : Store Data -> option string;
  drv_commit_err : Store Data -> Store Data -> option string;
  drv_prepare_err : string -> Store Data -> option string;
  drv_stmt : string -> list string -> Store Data ->
             string + (list (list string) * Store Data)
}.
Arguments drv_exec {Data} d.
Arguments drv_set_version_err {Data} d.
Arguments drv_get_version_err {Data} d.
Arguments drv_begin_err {Data} d.
Arguments drv_commit_err {Data} d.
Arguments drv_prepare_err {Data} d.
Arguments drv_stmt {Data} d.

(** The connection: the committed store, and every command that was sent
    to [Tx.Exec], oldest first, whether its transaction was committed or
    rolled back. *)
Record Conn (Data : Type) : Type := {
  committed : Store Data;
  executed : list Cmd
}.
Arguments committed {Data} c.
Arguments executed {Data} c.

(** A prepared statement ([*sql.Stmt]), known by the text it was prepared
    from. *)
Record Stmt : Type := { stmt_sql : string }.

(** [liteflow.DB]. *)
Record DB (Data : Type) : Type := {
  conn : Conn Data;
  versionFS : option FS;
  upgrades : gmap Z string;
  downgrades : gmap Z string;
  initFS : option FS;
  queryFS : option FS;
  statements : gmap string Stmt
}.
Arguments conn {Data} d.
Arguments versionFS {Data} d.
Arguments upgrades {Data} d.
Arguments downgrades {Data} d.
Arguments initFS {Data} d.
Arguments queryFS {Data} d.
Arguments statements {Data} d.

Definition UpgradeNone : Z := -1.
Definition UpgradeAll : Z := 0.

Record Options : Type := {
  MaxVersion : Z;
  NoPreload : bool;
  VersionFS : option FS;
  InitFS : option FS;
  QueryFS : option FS
}.

Definition defaultOptions : Options :=
  {| MaxVersion := 0; NoPreload := false;
     VersionFS := None; InitFS := None; QueryFS := None |}.

Section Liteflow.
Context {Data : Type}.
Variable drv : Driver Data.

Definition with_conn (db : DB Data) (c : Conn Data) : DB Data :=
  {| conn := c; versionFS := versionFS db; upgrades := upgrades db;
     downgrades := downgrades db; initFS := initFS db;
     queryFS := queryFS db; statements := statements db |}.

Definition with_statements (db : DB Data) (m : gmap string Stmt) : DB Data :=
  {| conn := conn db; versionFS := versionFS db; upgrades := upgrades db;
     downgrades := downgrades db; initFS := initFS db;
     queryFS := queryFS db; statements := m |}.

Definition with_versions (db : DB Data) (up down : gmap Z string) : DB Data :=
  {| conn := conn db; versionFS := versionFS db; upgrades := up;
     downgrades := down; initFS := initFS db;
     queryFS := queryFS db; statements := statements db |}.

(** *** Transactions of [database/sql] *)

(** An open transaction works on a copy of the store. *)
Record SqlTx : Type := { tx_conn : Conn Data; tx_work : Store Data }.

Definition sql_Begin (c : Conn Data) : error + SqlTx :=
  match drv_begin_err drv (committed c) with
  | Some e => inl (ErrDriver e)
  | None => inr {| tx_conn := c; tx_work := committed c |}
  end.

Definition log_cmd (t : SqlTx) (cmd : Cmd) : Conn Data :=
  {| committed := committed (tx_conn t);
     executed := executed (tx_conn t) ++ [cmd] |}.

Definition tx_Exec (t : SqlTx) (cmd : Cmd) : option error * SqlTx :=
  let c := log_cmd t cmd in
  match cmd with
  | SqlText content =>
      match drv_exec drv content (tx_work t) with
      | inl e => (Some (ErrDriver e), {| tx_conn := c; tx_work := tx_work t |})
      | inr w => (None, {| tx_conn := c; tx_work := w |})
      end
  | PragmaUserVersion v =>
      match drv_set_version_err drv v (tx_work t) with
      | Some e => (Some (ErrDriver e), {| tx_conn := c; tx_work := tx_work t |})
      | None =>
          (None, {| tx_conn := c;
                    tx_work := {| user_version := v; data := data (tx_work t) |} |})
      end
  end.

(** [tx.Rollback()]: the working copy is dropped. *)
Definition tx_Rollback (t : SqlTx) : Conn Data := tx_conn t.

(** [tx.Commit()]: the working copy becomes the store, unless the commit
    fails, which leaves the store as it was. *)
Definition tx_Commit (t : SqlTx) : option error * Conn Data :=
  match drv_commit_err drv (committed (tx_conn t)) (tx_work t) with
  | Some e => (Some (ErrDriver e), tx_conn t)
  | None => (None, {| committed := tx_work t; executed := executed (tx_conn t) |})
  end.

Definition sql_Prepare (c : Conn Data) (query : string) : error + Stmt :=
  match drv_prepare_err drv query (committed c) with
  | Some e => inl (ErrDriver e)
  | None => inr {| stmt_sql := query |}
  end.

(** *** Versioning *)

(** [loadVersions]. *)
Fixpoint loadVersions_loop (entries : list DirEntry) (db : DB Data) : DB Data :=
  match entries with
  | [] => db
  | entry :: rest =>
      if IsDir entry then loadVersions_loop rest db
      else
        let vnum :=
          GoStrconv.Atoi_digits (GoRegexp.rxVersion_FindString (Name entry)) in
        if 0 <? vnum then
          if GoRegexp.rxUpgrade_MatchString (Name entry) then
            loadVersions_loop rest
              (with_versions db (<[vnum := Name entry]> (upgrades db)) (downgrades db))
          else if GoRegexp.rxDowngrade_MatchString (Name entry) then
            loadVersions_loop rest
              (with_versions db (upgrades db) (<[vnum := Name entry]> (downgrades db)))
          else loadVersions_loop rest db
        else loadVersions_loop rest db
  end.

(** [fs.ReadDir] on a nil [fs.FS] calls [Open] on the nil interface. *)
Definition loadVersions (db : DB Data) : outcome (list error * DB Data) :=
  match versionFS db with
  | None => Panicked
  | Some vfs =>
      match fs_ReadDir vfs with
      | inl err => Returned ([Errorfw MsgReadVersionFS err], db)
      | inr entries => Returned ([], loadVersions_loop entries db)
      end
  end.

(** [Version]. *)
Definition Version (db : DB Data) : Z * option error :=
  match drv_get_version_err drv (committed (conn db)) with
  | Some e => (0, Some (Errorfw MsgQueryVersion (ErrDriver e)))
  | None => (user_version (committed (conn db)), None)
  end.

(** [runFileAndSetVersion].  [db.versionFS.Open] on a nil [versionFS]
    is a method call on a nil interface. *)
Definition runFileAndSetVersion (filename : string) (version : Z) (db : DB Data)
  : outcome (option error * DB Data) :=
  match versionFS db with
  | None => Panicked
  | Some vfs =>
      match FS_Open vfs filename with
      | inl err => Returned (Some (Errorfw (MsgOpenSQL filename) err), db)
      | inr f =>
          match io_ReadAll f with
          | inl err => Returned (Some (Errorfw (MsgReadSQL filename) err), db)
          | inr content =>
              match sql_Begin (conn db) with
              | inl err => Returned (Some (Errorfw (MsgStartTx filename) err), db)
              | inr tx =>
                  match tx_Exec tx (SqlText content) with
                  | (Some err, tx1) =>
                      Returned (Some (Errorfw (MsgRunSQL filename) err),
                                with_conn db (tx_Rollback tx1))
                  | (None, tx1) =>
                      match tx_Exec tx1 (PragmaUserVersion version) with
                      | (Some err, tx2) =>
                          Returned (Some (Errorfw (MsgUpdateVersion version) err),
                                    with_conn db (tx_Rollback tx2))
                      | (None, tx2) =>
                          match tx_Commit tx2 with
                          | (Some err, c) =>
                              Returned (Some (Errorfw (MsgCommit filename version) err),
                                        with_conn db c)
                          | (None, c) => Returned (None, with_conn db c)
                          end
                      end
                  end
              end
          end
      end
  end.

(** [Upgrade]: the [for] loop, one iteration per unit of fuel. *)
Fixpoint Upgrade_loop (fuel : nat) (version : Z) (db : DB Data)
  : outcome ((Z * option error) * DB Data) :=
  match fuel with
  | O => OutOfFuel
  | S fuel' =>
      match Version db with
      | (vCurr, Some err) => Returned ((vCurr, Some err), db)
      | (vCurr, None) =>
          if (0 <? version) && (version <=? vCurr)
          then Returned ((vCurr, None), db)
          else
            let vNext := vCurr + 1 in
            match upgrades db !! vNext with
            | None => Returned ((vCurr, None), db)
            | Some nextFileName =>
                match runFileAndSetVersion nextFileName vNext db with
                | Panicked => Panicked
                | OutOfFuel => OutOfFuel
                | Returned (Some err, db') =>
                    if errors_Is_NotExist err
                    then Returned ((vCurr, None), db')
                    else Returned ((vCurr, Some err), db')
                | Returned (None, db') => Upgrade_loop fuel' version db'
                end
            end
      end
  end.

(** Every iteration but the last finds the next version in the index and
    moves the stored version onto it, so the loop runs at most once more
    than the index has entries. *)
Definition Upgrade (version : Z) (db : DB Data)
  : outcome ((Z * option error) * DB Data) :=
  Upgrade_loop (S (size (upgrades db))) version db.

(** [Downgrade]. *)
Fixpoint Downgrade_loop (fuel : nat) (version : Z) (db : DB Data)
  : outcome ((Z * option error) * DB Data) :=
  match fuel with
  | O => OutOfFuel
  | S fuel' =>
      match Version db with
      | (vCurr, Some err) => Returned ((vCurr, Some err), db)
      | (vCurr, None) =>
          if vCurr <=? version
          then Returned ((vCurr, None), db)
          else
            match downgrades db !! vCurr with
            | None => Returned ((vCurr, None), db)
            | Some nextFileName =>
                match runFileAndSetVersion nextFileName (vCurr - 1) db with
                | Panicked => Panicked
                | OutOfFuel => OutOfFuel
                | Returned (Some err, db') =>
                    if errors_Is_NotExist err
                    then Returned ((vCurr, None), db')
                    else Returned ((vCurr, Some err), db')
                | Returned (None, db') => Downgrade_loop fuel' version db'
                end
            end
      end
  end.

Definition Downgrade (version : Z) (db : DB Data)
  : outcome ((Z * option error) * DB Data) :=
  Downgrade_loop (S (size (downgrades db))) version db.

(** *** Initialization scripts *)

(** [runOneScript]. *)
Definition runOneScript (filename : string) (db : DB Data)
  : outcome (option error * DB Data) :=
  match initFS db with
  | None => Panicked
  | Some ifs =>
      match FS_Open ifs filename with
      | inl err => Returned (Some (Errorfw (MsgOpenInit filename) err), db)
      | inr f =>
          match io_ReadAll f with
          | inl err => Returned (Some (Errorfw (MsgReadInit filename) err), db)
          | inr content =>
              match sql_Begin (conn db) with
              | inl err => Returned (Some (Errorfw (MsgTxInit filename) err), db)
              | inr tx =>
                  match tx_Exec tx (SqlText content) with
                  | (Some err, tx1) =>
                      Returned (Some (Errorfw (MsgRunInit filename) err),
                                with_conn db (tx_Rollback tx1))
                  | (None, tx1) =>
                      match tx_Commit tx1 with
                      | (Some err, c) =>
                          Returned (Some (Errorfw (MsgCommitInit filename) err),
                                    with_conn db c)
                      | (None, c) => Returned (None, with_conn db c)
                      end
                  end
              end
          end
      end
  end.

Fixpoint runInitScripts_loop (entries : list DirEntry) (db : DB Data)
  : outcome (list error * DB Data) :=
  match entries with
  | [] => Returned ([], db)
  | entry :: rest =>
      if IsDir entry then runInitScripts_loop rest db
      else if negb (GoStrings.HasSuffix (Name entry) ".sql")
      then runInitScripts_loop rest db
      else
        '(err, db1) ← runOneScript (Name entry) db;
        '(errs, db2) ← runInitScripts_loop rest db1;
        mret (match err with Some e => e :: errs | None => errs end, db2)
  end.

(** [runInitScripts]. *)
Definition runInitScripts (db : DB Data) : outcome (list error * DB Data) :=
  match initFS db with
  | None => Panicked
  | Some ifs =>
      match fs_ReadDir ifs with
      | inl err => Returned ([Errorfw MsgReadInitFS err], db)
      | inr entries => runInitScripts_loop entries db
      end
  end.

(** *** The statement loader *)

Definition newline : string := String (ascii_of_N 10) EmptyString.

(** [queryName]: [name], and [name.subname] once a sub-name is set. *)
Definition queryNameOf (name subname : string) : string :=
  match subname with
  | EmptyString => name
  | _ => name ++ "." ++ subname
  end.

(** The block under [if len(lines) > 0], which [loadStatements] has twice:
    at a name line and after the loop. *)
Definition prepareBuffered (name fn subname : string) (lines : list string)
    (lno : Z) (db : DB Data) : option error * DB Data :=
  match lines with
  | [] => (None, db)
  | _ =>
      let joined := GoStrings.Join lines newline in
      let queryName := queryNameOf name subname in
      match sql_Prepare (conn db) joined with
      | inl err => (Some (Errorfw (MsgPrepare fn lno queryName) err), db)
      | inr s => (None, with_statements db (<[queryName := s]> (statements db)))
      end
  end.

(** The local variables of [loadStatements]. *)
Record scanVars : Type := {
  subname : string;
  lines : list string;
  lno : Z
}.

(** The loop [for s.Scan() { ... }] over the lines the scanner delivers.
    [inl err] is the [return] inside the loop. *)
Fixpoint loadStatements_loop (name fn : string) (text : list string)
    (v : scanVars) (db : DB Data) : (error + scanVars) * DB Data :=
  match text with
  | [] => (inr v, db)
  | t :: rest =>
      let line := GoStrings.TrimSpace t in
      if (String.length line =? 0)%nat then loadStatements_loop name fn rest v db
      else
        let lno' := lno v + 1 in
        match GoRegexp.rxNameline_FindStringSubmatch line with
        | Some sub =>
            match prepareBuffered name fn (subname v) (lines v) lno' db with
            | (Some err, db') => (inl err, db')
            | (None, db') =>
                loadStatements_loop name fn rest
                  {| subname := sub; lines := []; lno := lno' |} db'
            end
        | None =>
            if negb (GoRegexp.rxComment_MatchString line)
            then loadStatements_loop name fn rest
                   {| subname := subname v; lines := lines v ++ [line]; lno := lno' |} db
            else loadStatements_loop name fn rest
                   {| subname := subname v; lines := lines v; lno := lno' |} db
        end
  end.

(** [loadStatements]. *)
Definition loadStatements (name : string) (db : DB Data) : option error * DB Data :=
  match queryFS db with
  | None => (Some (Errorf (MsgNoQueryFS name)), db)
  | Some qfs =>
      let fn := name ++ ".sql" in
      match FS_Open qfs fn with
      | inl err => (Some (Errorfw (MsgOpenFile fn) err), db)
      | inr f =>
          let '(text, serr) := GoBufio.Scan f in
          match loadStatements_loop name fn text
                  {| subname := EmptyString; lines := []; lno := 0 |} db with
          | (inl err, db') => (Some err, db')
          | (inr v, db') =>
              match serr with
              | Some e => (Some (Errorfw (MsgScan fn (lno v)) e), db')
              | None => prepareBuffered name fn (subname v) (lines v) (lno v) db'
              end
          end
      end
  end.

Fixpoint loadAllStatements_loop (entries : list DirEntry) (db : DB Data)
  : list error * DB Data :=
  match entries with
  | [] => ([], db)
  | entry :: rest =>
      if IsDir entry then loadAllStatements_loop rest db
      else if negb (GoStrings.HasSuffix (Name entry) ".sql")
      then loadAllStatements_loop rest db
      else
        let name := GoStrings.TrimSuffix (Name entry) ".sql" in
        let '(err, db1) := loadStatements name db in
        let '(errs, db2) := loadAllStatements_loop rest db1 in
        (match err with Some e => e :: errs | None => errs end, db2)
  end.

(** [loadAllStatements]. *)
Definition loadAllStatements (db : DB Data) : outcome (list error * DB Data) :=
  match queryFS db with
  | None => Panicked
  | Some qfs =>
      match fs_ReadDir qfs with
      | inl err => Returned ([Errorfw MsgReadQueryFS err], db)
      | inr entries => Returned (loadAllStatements_loop entries db)
      end
  end.

(** *** The statement cache *)

(** [named].  The second value of the pair is the error; the first is the
    statement pointer, [None] for nil. *)
Definition named (name : string) (db : DB Data)
  : (option Stmt * option error) * DB Data :=
  match statements db !! name with
  | Some s => ((Some s, None), db)
  | None =>
      match loadStatements name db with
      | (Some err, db') => ((None, Some (Errorfw (MsgLoadStatement name) err)), db')
      | (None, db') => ((statements db' !! name, None), db')
      end
  end.

(** What running a prepared statement gives: the driver's rows, which also
    stand for [sql.Result]. *)
Definition Rows : Type := list (list string).

(** [Stmt.Exec] and [Stmt.Query] of [database/sql] on a statement that is
    not nil. *)
Definition stmt_run (s : Stmt) (args : list string) (db : DB Data)
  : (option Rows * option error) * DB Data :=
  match drv_stmt drv (stmt_sql s) args (committed (conn db)) with
  | inl e => ((None, Some (ErrDriver e)), db)
  | inr (rows, st) =>
      ((Some rows, None),
       with_conn db {| committed := st; executed := executed (conn db) |})
  end.

(** [Exec]: [s.Exec(args...)] dereferences [s]. *)
Definition Exec (name : string) (args : list string) (db : DB Data)
  : outcome ((option Rows * option error) * DB Data) :=
  match named name db with
  | ((_, Some err), db') => Returned ((None, Some err), db')
  | ((None, None), db') => Panicked
  | ((Some s, None), db') => Returned (stmt_run s args db')
  end.

(** [Query]. *)
Definition Query (name : string) (args : list string) (db : DB Data)
  : outcome ((option Rows * option error) * DB Data) :=
  match named name db with
  | ((_, Some err), db') => Returned ((None, Some err), db')
  | ((None, None), db') => Panicked
  | ((Some s, None), db') => Returned (stmt_run s args db')
  end.

(** [QueryRow]: the error of the query stays inside the returned row, and
    the error value of [QueryRow] itself is nil. *)
Definition QueryRow (name : string) (args : list string) (db : DB Data)
  : outcome ((option (Rows + error) * option error) * DB Data) :=
  match named name db with
  | ((_, Some err), db') => Returned ((None, Some err), db')
  | ((None, None), db') => Panicked
  | ((Some s, None), db') =>
      match stmt_run s args db' with
      | ((Some rows, _), db2) => Returned ((Some (inl rows), None), db2)
      | ((None, Some e), db2) => Returned ((Some (inr e), None), db2)
      | ((None, None), db2) => Returned ((Some (inl []), None), db2)
      end
  end.

(** *** The constructor *)

(** [New].  [errs] collects the errors of the stages, nil ones included,
    and [errors.Join] drops the nil ones. *)
Definition New (db : option (Conn Data)) (opts : option Options)
  : outcome (option (DB Data) * option error) :=
  match db with
  | None => Returned (None, Some (Errorf MsgNilDB))
  | Some c =>
      let opts := default defaultOptions opts in
      let d := {| conn := c; versionFS := VersionFS opts;
                  upgrades := ∅; downgrades := ∅;
                  initFS := InitFS opts; queryFS := QueryFS opts;
                  statements := ∅ |} in
      '(errs1, d1) ←
        (if bool_decide (versionFS d ≠ None)
         then '(es, d') ← loadVersions d; mret (Some <$> es, d')
         else mret ([], d));
      '(errs2, d2) ←
        (if bool_decide (versionFS d1 ≠ None) && negb (MaxVersion opts =? UpgradeNone)
         then '(r, d') ← Upgrade (MaxVersion opts) d1; mret ([snd r], d')
         else mret ([], d1));
      '(errs3, d3) ←
        (if bool_decide (initFS d2 ≠ None) && negb (NoPreload opts)
         then '(es, d') ← runInitScripts d2; mret (Some <$> es, d')
         else mret ([], d2));
      '(errs4, d4) ←
        (if bool_decide (queryFS d3 ≠ None) && negb (NoPreload opts)
         then '(es, d') ← loadAllStatements d3; mret (Some <$> es, d')
         else mret ([], d3));
      mret (Some d4, errors_Join (errs1 ++ errs2 ++ errs3 ++ errs4))
  end.

End Liteflow.

(** ** What a migration step does *)

Section Steps.
Context {Data : Type}.
Variable drv : Driver Data.

(** [step_applied fn v db db1]: the script in file [fn] ran on the store,
    the stored version was set to [v], and both were committed; [db1] is
    [db] after that. *)
Inductive step_applied (fn : string) (v : Z) (db db1 : DB Data) : Prop :=
| StepApplied (vfs : FS) (content : string) (w : Store Data) :
    versionFS db = Some vfs ->
    FS_Open vfs fn = inr (FileData content) ->
    drv_begin_err drv (committed (conn db)) = None ->
    drv_exec drv content (committed (conn db)) = inr w ->
    drv_set_version_err drv v w = None ->
    drv_commit_err drv (committed (conn db))
      {| user_version := v; data := data w |} = None ->
    db1 = with_conn db
            {| committed := {| user_version := v; data := data w |};
               executed := executed (conn db)
                             ++ [SqlText content; PragmaUserVersion v] |} ->
    step_applied fn v db db1.

(** The successful steps of an upgrade towards [target], one after the
    other: at stored version [V] the file that the upgrade index has for
    [V + 1] is applied. *)
Inductive upgrade_run (target : Z) : DB Data -> DB Data -> Prop :=
| upgrade_run_nil db : upgrade_run target db db
| upgrade_run_cons db db1 db2 V fn :
    Version drv db = (V, None) ->
    ¬ (0 < target ∧ target <= V) ->
    upgrades db !! (V + 1) = Some fn ->
    step_applied fn (V + 1) db db1 ->
    upgrade_run target db1 db2 ->
    upgrade_run target db db2.

(** The successful steps of a downgrade towards [target]: at stored version
    [V], above the target, the file that the downgrade index has for [V]
    is applied and the stored version becomes [V - 1]. *)
Inductive downgrade_run (target : Z) : DB Data -> DB Data -> Prop :=
| downgrade_run_nil db : downgrade_run target db db
| downgrade_run_cons db db1 db2 V fn :
    Version drv db = (V, None) ->
    target < V ->
    downgrades db !! V = Some fn ->
    step_applied fn (V - 1) db db1 ->
    downgrade_run target db1 db2 ->
    downgrade_run target db db2.

(** The index entries an upgrade, or a downgrade, can still use. *)
Definition upgrades_ahead (db : DB Data) : gset Z :=
  filter (fun k => user_version (committed (conn db)) < k) (dom (upgrades db)).

Definition downgrades_ahead (db : DB Data) : gset Z :=
  filter (fun k => k <= user_version (committed (conn db))) (dom (downgrades db)).

(** The updates of the stored version that were sent to the connection.
    Only [runFileAndSetVersion] sends them. *)
Definition is_version_update (cmd : Cmd) : bool :=
  match cmd with
  | PragmaUserVersion _ => true
  | SqlText _ => false
  end.

Definition version_updates (c : Conn Data) : list Cmd :=
  filter (fun cmd => is_version_update cmd = true) (executed c).

(** [db'] is [db] but for the connection. *)
Definition same_but_conn (db db' : DB Data) : Prop :=
  versionFS db' = versionFS db /\ upgrades db' = upgrades db
  /\ downgrades db' = downgrades db /\ initFS db' = initFS db
  /\ queryFS db' = queryFS db /\ statements db' = statements db.

(** One iteration of [Upgrade]'s loop, with the rest of the loop as [k]. *)
Definition Upgrade_body (k : DB Data -> outcome ((Z * option error) * DB Data))
    (version : Z) (db : DB Data) : outcome ((Z * option error) * DB Data) :=
  match Version drv db with
  | (vCurr, Some err) => Returned ((vCurr, Some err), db)
  | (vCurr, None) =>
      if (0 <? version) && (version <=? vCurr)
      then Returned ((vCurr, None), db)
      else
        match upgrades db !! (vCurr + 1) with
        | None => Returned ((vCurr, None), db)
        | Some nextFileName =>
            match runFileAndSetVersion drv nextFileName (vCurr + 1) db with
            | Panicked => Panicked
            | OutOfFuel => OutOfFuel
            | Returned (Some err, db') =>
                if errors_Is_NotExist err
                then Returned ((vCurr, None), db')
                else Returned ((vCurr, Some err), db')
            | Returned (None, db') => k db'
            end
        end
  end.

Definition Downgrade_body (k : DB Data -> outcome ((Z * option error) * DB Data))
    (version : Z) (db : DB Data) : outcome ((Z * option error) * DB Data) :=
  match Version drv db with
  | (vCurr, Some err) => Returned ((vCurr, Some err), db)
  | (vCurr, None) =>
      if vCurr <=? version
      then Returned ((vCurr, None), db)
      else
        match downgrades db !! vCurr with
        | None => Returned ((vCurr, None), db)
        | Some nextFileName =>
            match runFileAndSetVersion drv nextFileName (vCurr - 1) db with
            | Panicked => Panicked
            | OutOfFuel => OutOfFuel
            | Returned (Some err, db') =>
                if errors_Is_NotExist err
                then Returned ((vCurr, None), db')
                else Returned ((vCurr, Some err), db')
            | Returned (None, db') => k db'
            end
        end
  end.

End Steps.

(** ** The lines of a query file *)

Module Lines.
Import GoStrings GoRegexp.

(** A blank line: nothing is left of it after [strings.TrimSpace]. *)
Definition blank_line (t : string) : bool :=
  (String.length (TrimSpace t) =? 0)%nat.

(** A marker line, with the sub-name it declares. *)
Definition name_line (t : string) : option string :=
  rxNameline_FindStringSubmatch (TrimSpace t).

(** A line of SQL: neither blank nor a comment (marker lines are
    comments). *)
Definition sql_line (t : string) : bool :=
  negb (blank_line t) && negb (rxComment_MatchString (TrimSpace t)).


(** The number of lines that are not blank. *)
Definition nonblank_count (text : list string) : Z :=
  Z.of_nat (length (filter (fun t => blank_line t = false) text)).

(** The fragment that is being collected after the lines [text]: its
    sub-name and its SQL lines so far, starting from [sub] and [buf]. *)
Fixpoint open_fragment (sub : string) (buf : list string) (text : list string)
  : string * list string :=
  match text with
  | [] => (sub, buf)
  | t :: rest =>
      match name_line t with
      | Some s => open_fragment s [] rest
      | None =>
          if sql_line t then open_fragment sub (buf ++ [TrimSpace t]) rest
          else open_fragment sub buf rest
      end
  end.

(** The 1-based number of the first marker line that declares [sub]. *)
Fixpoint marker_lno (sub : string) (text : list string) (n : Z) : option Z :=
  match text with
  | [] => None
  | t :: rest =>
      match name_line t with
      | Some s => if String.eqb s sub then Some n else marker_lno sub rest (n + 1)
      | None => marker_lno sub rest (n + 1)
      end
  end.

End Lines.

(** ** Concrete databases and file systems for the examples *)

Module Demo.
Import GoStrings.

(** The store's data: the SQL texts that were applied, oldest first. *)
Definition Data : Type := list string.

(** A driver without faults.  A text that starts with FAIL fails to
    execute, a text that starts with BAD fails to prepare, and the stored
    version cannot be set to 13. *)
Definition drv : Driver Data := {|
  drv_exec := fun content st =>
    if HasPrefix content "FAIL" then inl "SQL logic error"
    else inr {| user_version := user_version st; data := (data st ++ [content])%list |};
  drv_set_version_err := fun v _ =>
    if v =? 13 then Some "disk I/O error" else None;
  drv_get_version_err := fun _ => None;
  drv_begin_err := fun _ => None;
  drv_commit_err := fun _ _ => None;
  drv_prepare_err := fun q _ =>
    if HasPrefix q "BAD" then Some "syntax error" else None;
  drv_stmt := fun _ _ st => inr ([], st)
|}.

Definition fresh (v : Z) : Conn Data :=
  {| committed := {| user_version := v; data := [] |}; executed := [] |}.

Definition files (l : list (string * string)) : FS :=
  {| fs_readdir_err := None;
     fs_nodes := map (fun p => (fst p, NodeFile (snd p))) l |}.

Definition nl : string := String (ascii_of_N 10) EmptyString.

(** Upgrades for the versions 1, 2 and 4: version 3 is missing. *)
Definition gapFS : FS :=
  files [("1.up.sql", "CREATE TABLE a(x)");
         ("2.up.sql", "CREATE TABLE b(x)");
         ("4.up.sql", "CREATE TABLE d(x)")].



(** Downgrades for the versions 3 and 2 only. *)
Definition downFS : FS :=
  files [("2.down.sql", "DROP TABLE b");
         ("3.down.sql", "DROP TABLE c")].

Definition mkDB (c : Conn Data) (vfs : option FS) (up down : list (Z * string))
    (qfs : option FS) : DB Data :=
  {| conn := c; versionFS := vfs;
     upgrades := list_to_map up; downgrades := list_to_map down;
     initFS := None; queryFS := qfs; statements := ∅ |}.

Definition gapDB : DB Data :=
  mkDB (fresh 0) (Some gapFS)
    [(1, "1.up.sql"); (2, "2.up.sql"); (4, "4.up.sql")] [] None.



Definition downDB : DB Data :=
  mkDB (fresh 3) (Some downFS) []
    [(2, "2.down.sql"); (3, "3.down.sql")] None.

(** Query files. *)
Definition queryFS1 : FS :=
  files [("blank.sql", "-- nothing here" ++ nl ++ nl ++ "   " ++ nl);
         ("one.sql", "-- all users" ++ nl ++ "SELECT *" ++ nl ++ "  FROM users" ++ nl);
         ("two.sql",
          "-- name: a" ++ nl ++ "SELECT 1" ++ nl ++ nl
          ++ "-- name: b" ++ nl ++ "SELECT 2" ++ nl);
         ("bad.sql",
          "-- name: a" ++ nl ++ "BAD" ++ nl
          ++ "-- name: b" ++ nl ++ "SELECT 2" ++ nl);
         ("gappy.sql", nl ++ "BAD" ++ nl)].

Definition queryDB : DB Data := mkDB (fresh 0) None [] [] (Some queryFS1).

Definition two_text : list string :=
  ["-- name: a"; "SELECT 1"; EmptyString; "-- name: b"; "SELECT 2"].
Definition bad_text : list string :=
  ["-- name: a"; "BAD"; "-- name: b"; "SELECT 2"].

(** [db] with another store and another log of executed commands. *)
Definition at_store (db : DB Data) (v : Z) (d : Data) (cmds : list Cmd) : DB Data :=
  {| conn := {| committed := {| user_version := v; data := d |};
                executed := cmds |};
     versionFS := versionFS db; upgrades := upgrades db;
     downgrades := downgrades db; initFS := initFS db;
     queryFS := queryFS db; statements := statements db |}.

Definition gapDB1 : DB Data :=
  at_store gapDB 1 ["CREATE TABLE a(x)"]
    [SqlText "CREATE TABLE a(x)"; PragmaUserVersion 1].

Definition gapDB2 : DB Data :=
  at_store gapDB 2 ["CREATE TABLE a(x)"; "CREATE TABLE b(x)"]
    [SqlText "CREATE TABLE a(x)"; PragmaUserVersion 1;
     SqlText "CREATE TABLE b(x)"; PragmaUserVersion 2].

Definition downDB2 : DB Data :=
  at_store downDB 2 ["DROP TABLE c"]
    [SqlText "DROP TABLE c"; PragmaUserVersion 2].

Definition downDB1 : DB Data :=
  at_store downDB 1 ["DROP TABLE c"; "DROP TABLE b"]
    [SqlText "DROP TABLE c"; PragmaUserVersion 2;
     SqlText "DROP TABLE b"; PragmaUserVersion 1].


(** [New] with lazy loading, and with the default preloading. *)
Definition lazyOpts : Options :=
  {| MaxVersion := UpgradeAll; NoPreload := true;
     VersionFS := None; InitFS := None; QueryFS := Some queryFS1 |}.

Definition twoFS : FS :=
  files [("two.sql",
          "-- name: a" ++ nl ++ "SELECT 1" ++ nl ++ nl
          ++ "-- name: b" ++ nl ++ "SELECT 2" ++ nl)].

Definition eagerOpts : Options :=
  {| MaxVersion := UpgradeAll; NoPreload := false;
     VersionFS := None; InitFS := None; QueryFS := Some twoFS |}.

Definition eagerDB : DB Data :=
  {| conn := fresh 0; versionFS := None; upgrades := ∅; downgrades := ∅;
     initFS := None; queryFS := Some twoFS;
     statements := list_to_map [("two.a", {| stmt_sql := "SELECT 1" |});
                                ("two.b", {| stmt_sql := "SELECT 2" |})] |}.

Definition with_cache (db : DB Data) (l : list (string * string)) : DB Data :=
  {| conn := conn db; versionFS := versionFS db; upgrades := upgrades db;
     downgrades := downgrades db; initFS := initFS db;
     queryFS := queryFS db;
     statements := list_to_map (map (fun p => (fst p, {| stmt_sql := snd p |})) l) |}.

End Demo.

(** ** Views of the version directory, of a run of steps and of a query file *)

Module Index.
Import GoStrings GoRegexp GoStrconv.

(** The version number [loadVersions] reads off a file name. *)
Definition vnum_of (entry : DirEntry) : Z :=
  Atoi_digits (rxVersion_FindString (Name entry)).

(** The entries that [loadVersions] files under the upgrades, and under the
    downgrades, of version [k]. *)
Definition is_upgrade_file (k : Z) (entry : DirEntry) : bool :=
  negb (IsDir entry) && (0 <? vnum_of entry) && (vnum_of entry =? k)
  && rxUpgrade_MatchString (Name entry).

Definition is_downgrade_file (k : Z) (entry : DirEntry) : bool :=
  negb (IsDir entry) && (0 <? vnum_of entry) && (vnum_of entry =? k)
  && negb (rxUpgrade_MatchString (Name entry))
  && rxDowngrade_MatchString (Name entry).

(** The entries that [runInitScripts] and [loadAllStatements] look at. *)
Definition is_sql_file (entry : DirEntry) : bool :=
  negb (IsDir entry) && HasSuffix (Name entry) ".sql".

End Index.

Section Views.
Context {Data : Type}.
Variable drv : Driver Data.

(** The text of the script that the index [idx] names for version [k]. *)
Definition script_of (db : DB Data) (idx : gmap Z string) (k : Z) : option string :=
  match idx !! k, versionFS db with
  | Some fn, Some vfs =>
      match FS_Open vfs fn with
      | inr (FileData content) => Some content
      | _ => None
      end
  | _, _ => None
  end.


(** The commands of the downgrade steps from the versions in [ks]: for each
    the script of the version and the update of the stored version to the
    one below. *)
Definition downgrade_cmds (db : DB Data) (ks : list Z) : list Cmd :=
  flat_map (fun k => [SqlText (default EmptyString (script_of db (downgrades db) k));
                      PragmaUserVersion (k - 1)]) ks.

(** The versions [V], [V - 1], ..., [K + 1]. *)
Definition downto (V K : Z) : list Z := (fun i => V - i) <$> seqZ 0 (V - K).

(** The last iteration of a loop: it does not go round again. *)
Definition no_more : DB Data -> outcome ((Z * option error) * DB Data) :=
  fun _ => OutOfFuel.

(** The fragments of a query file in the order in which [loadStatements]
    prepares them, each with its sub-name, its SQL lines and the value of
    the line counter at which it is prepared.  [fragments_at] gives those
    closed by a marker line, and the fragment still open at the end. *)
Definition fragment : Type := (string * list string * Z)%type.

Fixpoint fragments_at (sub : string) (buf : list string) (n : Z)
    (text : list string) : list fragment * fragment :=
  match text with
  | [] => ([], (sub, buf, n))
  | t :: rest =>
      if Lines.blank_line t then fragments_at sub buf n rest
      else
        match Lines.name_line t with
        | Some s =>
            let '(frs, last) := fragments_at s [] (n + 1) rest in
            (match buf with
             | [] => frs
             | _ => (sub, buf, n + 1) :: frs
             end, last)
        | None =>
            if Lines.sql_line t
            then fragments_at sub (buf ++ [GoStrings.TrimSpace t]) (n + 1) rest
            else fragments_at sub buf (n + 1) rest
        end
  end.

Definition file_fragments (text : list string) : list fragment :=
  let '(frs, (sub, buf, n)) := fragments_at EmptyString [] 0 text in
  match buf with
  | [] => frs
  | _ => frs ++ [(sub, buf, n)]
  end.

(** Preparing fragments one after the other, up to the first that fails. *)
Fixpoint prepare_all (name fn : string) (frs : list fragment) (db : DB Data)
  : option error * DB Data :=
  match frs with
  | [] => (None, db)
  | (sub, buf, n) :: rest =>
      match prepareBuffered drv name fn sub buf n db with
      | (Some err, db') => (Some err, db')
      | (None, db') => prepare_all name fn rest db'
      end
  end.

(** *** Named statements inside a transaction ([liteflow.Tx]) *)

(** What [sql.Tx.Stmt] returns: the statement bound to the transaction, or
    a statement that carries the error with which binding failed and
    returns it from every call. *)
Inductive TxStmt : Type :=
| TxBound (query : string)
| TxSticky (err : error).

(** [sql.ErrTxDone]. *)
Definition ErrTxDone : error :=
  ErrDriver "sql: transaction has already been committed or rolled back".

(** [liteflow.Tx]: the transaction of [database/sql], whether it has been
    committed or rolled back, and the cache of the statements bound to it.
    The field [DB] is a pointer to the [DB] the transaction was begun on;
    the methods below take that [DB] and return it. *)
Record Tx : Type := {
  tx_sql : SqlTx (Data := Data);
  tx_done : bool;
  tx_statements : gmap string TxStmt
}.

(** [BeginTx] (and [Begin], which calls it with the background context).
    [inl err] stands for the error that wraps [err] with the text
    [could not begin transaction]. *)
Definition BeginTx (db : DB Data) : error + Tx :=
  match sql_Begin drv (conn db) with
  | inl err => inl err
  | inr t => inr {| tx_sql := t; tx_done := false; tx_statements := ∅ |}
  end.

(** [tx.Stmt(s)] of [database/sql].  On a finished transaction it returns a
    statement with [ErrTxDone]; otherwise it reads a field of [s], which
    panics for nil, and prepares the text of [s] on the connection of the
    transaction. *)
Definition sqlTx_Stmt (t : Tx) (s : option Stmt) : outcome TxStmt :=
  if tx_done t then Returned (TxSticky ErrTxDone)
  else
    match s with
    | None => Panicked
    | Some st =>
        match drv_prepare_err drv (stmt_sql st) (tx_work (tx_sql t)) with
        | Some e => Returned (TxSticky (ErrDriver e))
        | None => Returned (TxBound (stmt_sql st))
        end
    end.

Definition with_tx_statements (t : Tx) (m : gmap string TxStmt) : Tx :=
  {| tx_sql := tx_sql t; tx_done := tx_done t; tx_statements := m |}.

(** [Tx.named]. *)
Definition Tx_named (name : string) (t : Tx) (db : DB Data)
  : outcome ((option TxStmt * option error) * Tx * DB Data) :=
  match tx_statements t !! name with
  | Some s => Returned ((Some s, None), t, db)
  | None =>
      match named drv name db with
      | ((_, Some err), db') => Returned ((None, Some err), t, db')
      | ((s, None), db') =>
          s' ← sqlTx_Stmt t s;
          mret ((Some s', None),
                with_tx_statements t (<[name := s']> (tx_statements t)), db')
      end
  end.

(** [db'] is [db] with more statements: the keys of the cache are kept, a
    statement that is new or replaced has a name that belongs to the file
    [name], and nothing but the cache has changed. *)
Definition cache_extended (name : string) (db db' : DB Data) : Prop :=
  conn db' = conn db /\ versionFS db' = versionFS db
  /\ upgrades db' = upgrades db /\ downgrades db' = downgrades db
  /\ initFS db' = initFS db /\ queryFS db' = queryFS db
  /\ (forall q, is_Some (statements db !! q) -> is_Some (statements db' !! q))
  /\ (forall q s, statements db' !! q = Some s ->
                  statements db !! q = Some s
                  \/ exists sub, q = queryNameOf name sub).

End Views.

(** ** More concrete databases for the examples *)

Module Demo2.
Import GoStrings Demo.

(** The driver of [Demo], but the stored version cannot be read while it
    is 2. *)
Definition drv2 : Driver Data := {|
  drv_exec := drv_exec drv;
  drv_set_version_err := drv_set_version_err drv;
  drv_get_version_err := fun st =>
    if user_version st =? 2 then Some "database is locked" else None;
  drv_begin_err := drv_begin_err drv;
  drv_commit_err := drv_commit_err drv;
  drv_prepare_err := drv_prepare_err drv;
  drv_stmt := drv_stmt drv
|}.

(** A database at version 2 whose index names a file for version 3 that
    the version directory does not hold. *)
Definition ghostDB : DB Data :=
  {| conn := conn gapDB2; versionFS := Some gapFS;
     upgrades := list_to_map [(1, "1.up.sql"); (2, "2.up.sql"); (3, "3.up.sql")];
     downgrades := ∅; initFS := None; queryFS := None; statements := ∅ |}.

(** A version directory, in the order of its listing: two upgrade files
    for version 1, a name with both markers, a directory, and a file
    without a number. *)
Definition dupFS : FS :=
  {| fs_readdir_err := None;
     fs_nodes := [("001.up.sql", NodeFile "CREATE TABLE old(x)");
                  ("1.down.sql", NodeFile "DROP TABLE a");
                  ("1.up.sql", NodeFile "CREATE TABLE a(x)");
                  ("2.up.down.sql", NodeFile "CREATE TABLE b(x)");
                  ("3.up.d", NodeDir);
                  ("readme.up.txt", NodeFile "notes")] |}.

Definition dupEntries : list DirEntry :=
  [{| Name := "001.up.sql"; IsDir := false |};
   {| Name := "1.down.sql"; IsDir := false |};
   {| Name := "1.up.sql"; IsDir := false |};
   {| Name := "2.up.down.sql"; IsDir := false |};
   {| Name := "3.up.d"; IsDir := true |};
   {| Name := "readme.up.txt"; IsDir := false |}].

Definition dupDB : DB Data := mkDB (fresh 0) (Some dupFS) [] [] None.

Definition dupIndexed : DB Data :=
  mkDB (fresh 0) (Some dupFS)
    [(1, "1.up.sql"); (2, "2.up.down.sql")] [(1, "1.down.sql")] None.

Definition dupOpts : Options :=
  {| MaxVersion := UpgradeNone; NoPreload := true;
     VersionFS := Some dupFS; InitFS := None; QueryFS := None |}.




(** [queryDB] after loading [one.sql], and a transaction begun on it. *)
Definition oneSql : string := ("SELECT *" ++ nl ++ "FROM users")%string.

Definition oneDB : DB Data := with_cache queryDB [("one", oneSql)].

Definition twoDB : DB Data :=
  with_cache queryDB [("two.a", "SELECT 1"); ("two.b", "SELECT 2")].

Definition tx0 : Tx (Data := Data) :=
  {| tx_sql := {| tx_conn := conn queryDB; tx_work := committed (conn queryDB) |};
     tx_done := false; tx_statements := ∅ |}.

Definition tx1 : Tx (Data := Data) :=
  {| tx_sql := tx_sql tx0; tx_done := false;
     tx_statements := {[ "one" := TxBound oneSql ]} |}.

Definition txDone : Tx (Data := Data) :=
  {| tx_sql := tx_sql tx0; tx_done := true; tx_statements := ∅ |}.

End Demo2.

(** ** Properties of the migration runner *)

Section MigrationFacts.
Context {Data : Type}.
Variable drv : Driver Data.
Implicit Types db : DB Data.

Lemma Version_ok db V :
  Version drv db = (V, None) <->
  drv_get_version_err drv (committed (conn db)) = None
  /\ V = user_version (committed (conn db)).
Proof.
  unfold Version. destruct (drv_get_version_err _ _); split.
  - intros [=].
  - intros [[=] _].
  - intros [= <-]. auto.
  - intros [_ ->]. reflexivity.
Qed.

Ltac run_cases H :=
  unfold runFileAndSetVersion, sql_Begin, tx_Exec, tx_Commit, tx_Rollback,
    log_cmd in H;
  repeat (case_match; simplify_eq/=; try done).

(** A step touches nothing but the connection. *)
Lemma runFileAndSetVersion_frame fn v db r db' :
  runFileAndSetVersion drv fn v db = Returned (r, db') ->
  versionFS db' = versionFS db /\ upgrades db' = upgrades db
  /\ downgrades db' = downgrades db /\ initFS db' = initFS db
  /\ queryFS db' = queryFS db /\ statements db' = statements db.
Proof. intros H. run_cases H. Qed.

(** A step that returns an error leaves the store as it was. *)
Lemma runFileAndSetVersion_failure fn v db err db' :
  runFileAndSetVersion drv fn v db = Returned (Some err, db') ->
  committed (conn db') = committed (conn db).
Proof. intros H. run_cases H. Qed.

(** A step returns no error exactly when script and version update were
    both committed. *)
Lemma runFileAndSetVersion_success fn v db db' :
  runFileAndSetVersion drv fn v db = Returned (None, db') <->
  step_applied drv fn v db db'.
Proof.
  split.
  - intros H. run_cases H.
    match goal with
    | Hf : io_ReadAll ?f = inr _ |- _ => destruct f; simplify_eq/=
    end.
    econstructor; eauto. by rewrite <- app_assoc.
  - intros [vfs content w Hv Ho Hb He Hs Hc ->].
    unfold runFileAndSetVersion, sql_Begin, tx_Exec, tx_Commit, log_cmd.
    rewrite Hv, Ho. simpl. rewrite Hb. simpl. rewrite He. simpl.
    rewrite Hs. simpl. rewrite Hc. simpl.
    rewrite <- app_assoc. reflexivity.
Qed.

Lemma step_applied_version fn v db db1 :
  step_applied drv fn v db db1 ->
  user_version (committed (conn db1)) = v
  /\ upgrades db1 = upgrades db /\ downgrades db1 = downgrades db.
Proof. intros [vfs content w _ _ _ _ _ _ ->]. done. Qed.

(** *** The loops return *)

Lemma upgrades_ahead_step db db1 V fn :
  Version drv db = (V, None) ->
  upgrades db !! (V + 1) = Some fn ->
  step_applied drv fn (V + 1) db db1 ->
  (size (upgrades_ahead db1) < size (upgrades_ahead db))%nat.
Proof.
  intros [_ ->]%Version_ok Hin (Hv & Hu & _)%step_applied_version.
  apply subset_size. unfold upgrades_ahead. rewrite Hv, Hu.
  apply elem_of_dom_2 in Hin.
  split.
  - intros k [Hk ?]%elem_of_filter. apply elem_of_filter. split; [lia | done].
  - intros Hsub.
    assert (Hk : user_version (committed (conn db)) + 1
                   ∈ filter (fun k => user_version (committed (conn db)) + 1 < k)
                       (dom (upgrades db))).
    { apply Hsub, elem_of_filter. split; [lia | done]. }
    apply elem_of_filter in Hk as [Hk _]. lia.
Qed.

Lemma downgrades_ahead_step db db1 V fn :
  Version drv db = (V, None) ->
  downgrades db !! V = Some fn ->
  step_applied drv fn (V - 1) db db1 ->
  (size (downgrades_ahead db1) < size (downgrades_ahead db))%nat.
Proof.
  intros [_ ->]%Version_ok Hin (Hv & _ & Hd)%step_applied_version.
  apply subset_size. unfold downgrades_ahead. rewrite Hv, Hd.
  apply elem_of_dom_2 in Hin.
  split.
  - intros k [Hk ?]%elem_of_filter. apply elem_of_filter. split; [lia | done].
  - intros Hsub.
    assert (Hk : user_version (committed (conn db))
                   ∈ filter (fun k => k <= user_version (committed (conn db)) - 1)
                       (dom (downgrades db))).
    { apply Hsub, elem_of_filter. split; [lia | done]. }
    apply elem_of_filter in Hk as [Hk _]. lia.
Qed.

Lemma upgrades_ahead_size db : (size (upgrades_ahead db) <= size (upgrades db))%nat.
Proof.
  rewrite <- size_dom. apply subseteq_size.
  unfold upgrades_ahead. intros k [_ ?]%elem_of_filter. done.
Qed.

Lemma downgrades_ahead_size db :
  (size (downgrades_ahead db) <= size (downgrades db))%nat.
Proof.
  rewrite <- size_dom. apply subseteq_size.
  unfold downgrades_ahead. intros k [_ ?]%elem_of_filter. done.
Qed.

Lemma Upgrade_loop_S n version db :
  Upgrade_loop drv (S n) version db
  = Upgrade_body drv (Upgrade_loop drv n version) version db.
Proof. reflexivity. Qed.

Lemma Downgrade_loop_S n version db :
  Downgrade_loop drv (S n) version db
  = Downgrade_body drv (Downgrade_loop drv n version) version db.
Proof. reflexivity. Qed.

Lemma runFileAndSetVersion_fuel fn v db :
  runFileAndSetVersion drv fn v db <> OutOfFuel.
Proof.
  unfold runFileAndSetVersion. repeat (case_match; try done).
Qed.

(** With more fuel than usable index entries, the loop does not run out. *)
Lemma Upgrade_loop_enough n version db :
  (size (upgrades_ahead db) < n)%nat ->
  Upgrade_loop drv n version db <> OutOfFuel.
Proof.
  revert db. induction n as [|n IH]; intros db Hn; [lia|].
  rewrite Upgrade_loop_S. unfold Upgrade_body.
  destruct (Version drv db) as [V [e|]] eqn:HV; [done|].
  destruct (_ && _); [done|].
  destruct (upgrades db !! (V + 1)) as [fn|] eqn:Hfn; [|done].
  destruct (runFileAndSetVersion drv fn (V + 1) db) as [[[e|] db']| |] eqn:Hrun;
    try done.
  - by destruct (errors_Is_NotExist e).
  - apply IH. apply runFileAndSetVersion_success in Hrun.
    pose proof (upgrades_ahead_step db db' V fn HV Hfn Hrun). lia.
  - by apply runFileAndSetVersion_fuel in Hrun.
Qed.

Lemma Downgrade_loop_enough n version db :
  (size (downgrades_ahead db) < n)%nat ->
  Downgrade_loop drv n version db <> OutOfFuel.
Proof.
  revert db. induction n as [|n IH]; intros db Hn; [lia|].
  rewrite Downgrade_loop_S. unfold Downgrade_body.
  destruct (Version drv db) as [V [e|]] eqn:HV; [done|].
  destruct (_ <=? _); [done|].
  destruct (downgrades db !! V) as [fn|] eqn:Hfn; [|done].
  destruct (runFileAndSetVersion drv fn (V - 1) db) as [[[e|] db']| |] eqn:Hrun;
    try done.
  - by destruct (errors_Is_NotExist e).
  - apply IH. apply runFileAndSetVersion_success in Hrun.
    pose proof (downgrades_ahead_step db db' V fn HV Hfn Hrun). lia.
  - by apply runFileAndSetVersion_fuel in Hrun.
Qed.

(** Once the loop returns, more fuel changes nothing. *)
Lemma Upgrade_loop_more n m version db :
  (n <= m)%nat ->
  Upgrade_loop drv n version db <> OutOfFuel ->
  Upgrade_loop drv m version db = Upgrade_loop drv n version db.
Proof.
  revert m db. induction n as [|n IH]; intros m db Hle Hn; [done|].
  destruct m as [|m]; [lia|].
  rewrite !Upgrade_loop_S in *. unfold Upgrade_body in *.
  repeat (case_match; try done).
  apply IH; [lia | done].
Qed.

Lemma Downgrade_loop_more n m version db :
  (n <= m)%nat ->
  Downgrade_loop drv n version db <> OutOfFuel ->
  Downgrade_loop drv m version db = Downgrade_loop drv n version db.
Proof.
  revert m db. induction n as [|n IH]; intros m db Hle Hn; [done|].
  destruct m as [|m]; [lia|].
  rewrite !Downgrade_loop_S in *. unfold Downgrade_body in *.
  repeat (case_match; try done).
  apply IH; [lia | done].
Qed.

(** [Upgrade] and [Downgrade] always come back: they return or panic. *)
Lemma Upgrade_fuel version db : Upgrade drv version db <> OutOfFuel.
Proof.
  apply Upgrade_loop_enough. pose proof (upgrades_ahead_size db). lia.
Qed.

Lemma Downgrade_fuel version db : Downgrade drv version db <> OutOfFuel.
Proof.
  apply Downgrade_loop_enough. pose proof (downgrades_ahead_size db). lia.
Qed.

(** The loop equations of [Upgrade] and [Downgrade]: one iteration, then
    the same call on the new state. *)
Lemma Upgrade_unfold version db :
  Upgrade drv version db = Upgrade_body drv (Upgrade drv version) version db.
Proof.
  unfold Upgrade at 1. rewrite Upgrade_loop_S. unfold Upgrade_body.
  destruct (Version drv db) as [V [e|]] eqn:HV; [done|].
  destruct (_ && _); [done|].
  destruct (upgrades db !! (V + 1)) as [fn|] eqn:Hfn; [|done].
  destruct (runFileAndSetVersion drv fn (V + 1) db) as [[[e|] db']| |] eqn:Hrun;
    try done.
  apply runFileAndSetVersion_success in Hrun.
  pose proof (upgrades_ahead_step db db' V fn HV Hfn Hrun) as Hlt.
  pose proof (upgrades_ahead_size db) as Hle.
  apply step_applied_version in Hrun as (_ & Hu & _).
  unfold Upgrade. rewrite Hu. symmetry.
  apply Upgrade_loop_more; [lia|].
  apply Upgrade_loop_enough. lia.
Qed.

Lemma Downgrade_unfold version db :
  Downgrade drv version db = Downgrade_body drv (Downgrade drv version) version db.
Proof.
  unfold Downgrade at 1. rewrite Downgrade_loop_S. unfold Downgrade_body.
  destruct (Version drv db) as [V [e|]] eqn:HV; [done|].
  destruct (_ <=? _); [done|].
  destruct (downgrades db !! V) as [fn|] eqn:Hfn; [|done].
  destruct (runFileAndSetVersion drv fn (V - 1) db) as [[[e|] db']| |] eqn:Hrun;
    try done.
  apply runFileAndSetVersion_success in Hrun.
  pose proof (downgrades_ahead_step db db' V fn HV Hfn Hrun) as Hlt.
  pose proof (downgrades_ahead_size db) as Hle.
  apply step_applied_version in Hrun as (_ & _ & Hd).
  unfold Downgrade. rewrite Hd. symmetry.
  apply Downgrade_loop_more; [lia|].
  apply Downgrade_loop_enough. lia.
Qed.

(** With a [versionFS], a step returns, and so do the loops. *)
Lemma runFileAndSetVersion_returns fn v db vfs :
  versionFS db = Some vfs ->
  exists r db', runFileAndSetVersion drv fn v db = Returned (r, db').
Proof.
  intros Hv. unfold runFileAndSetVersion. rewrite Hv.
  repeat case_match; eauto.
Qed.

Lemma Upgrade_loop_no_panic n version db vfs :
  versionFS db = Some vfs -> Upgrade_loop drv n version db <> Panicked.
Proof.
  revert db. induction n as [|n IH]; intros db Hv; [done|].
  rewrite Upgrade_loop_S. unfold Upgrade_body.
  repeat (case_match; try done).
  - match goal with
    | H : runFileAndSetVersion _ _ _ _ = Returned _ |- _ =>
        apply runFileAndSetVersion_frame in H as (Hf & _)
    end.
    apply IH. congruence.
  - match goal with
    | H : runFileAndSetVersion _ ?fn ?v _ = Panicked |- _ =>
        destruct (runFileAndSetVersion_returns fn v db vfs Hv) as (? & ? & ?);
        congruence
    end.
Qed.

Lemma Downgrade_loop_no_panic n version db vfs :
  versionFS db = Some vfs -> Downgrade_loop drv n version db <> Panicked.
Proof.
  revert db. induction n as [|n IH]; intros db Hv; [done|].
  rewrite Downgrade_loop_S. unfold Downgrade_body.
  repeat (case_match; try done).
  - match goal with
    | H : runFileAndSetVersion _ _ _ _ = Returned _ |- _ =>
        apply runFileAndSetVersion_frame in H as (Hf & _)
    end.
    apply IH. congruence.
  - match goal with
    | H : runFileAndSetVersion _ ?fn ?v _ = Panicked |- _ =>
        destruct (runFileAndSetVersion_returns fn v db vfs Hv) as (? & ? & ?);
        congruence
    end.
Qed.

Lemma Upgrade_returns version db vfs :
  versionFS db = Some vfs ->
  exists r db', Upgrade drv version db = Returned (r, db').
Proof.
  intros Hv.
  pose proof (Upgrade_fuel version db) as Hf.
  pose proof (Upgrade_loop_no_panic (S (size (upgrades db))) version db vfs Hv) as Hp.
  fold (Upgrade drv version db) in Hp.
  destruct (Upgrade drv version db) as [[r db']| |]; [eauto | done | done].
Qed.

Lemma Downgrade_returns version db vfs :
  versionFS db = Some vfs ->
  exists r db', Downgrade drv version db = Returned (r, db').
Proof.
  intros Hv.
  pose proof (Downgrade_fuel version db) as Hf.
  pose proof (Downgrade_loop_no_panic (S (size (downgrades db))) version db vfs Hv)
    as Hp.
  fold (Downgrade drv version db) in Hp.
  destruct (Downgrade drv version db) as [[r db']| |]; [eauto | done | done].
Qed.

End MigrationFacts.

(** ** The migration runner: upgrade, downgrade, atomic steps *)

Section MigrationClaims.
Context {Data : Type}.
Variable drv : Driver Data.
Implicit Types db : DB Data.


(** C4.  [Upgrade] stops at the first gap of the upgrade index without an
    error: when the upgrade steps from [db] have been applied one after
    the other up to [db'], whose stored version is [K], and the index has
    no file for [K + 1], then [Upgrade] returns [K] and no error, and
    leaves [db'].  With upgrades for 1, 2 and 4 and a database at version
    0 this is version 2. *)
Theorem Upgrade_stops_at_gap target db db' K :
  upgrade_run drv target db db' ->
  Version drv db' = (K, None) ->
  upgrades db' !! (K + 1) = None ->
  Upgrade drv target db = Returned ((K, None), db').
Proof.
  intros Hrun HK Hgap.
  induction Hrun as [db|db db1 db2 V fn HV Hceil Hfn Hstep Hrun IH].
  - rewrite Upgrade_unfold. unfold Upgrade_body. rewrite HK.
    destruct (_ && _); [done|]. by rewrite Hgap.
  - rewrite Upgrade_unfold. unfold Upgrade_body. rewrite HV.
    destruct ((0 <? target) && (target <=? V)) eqn:Hc; [lia|].
    rewrite Hfn.
    apply runFileAndSetVersion_success in Hstep. rewrite Hstep.
    by apply IH.
Qed.

(** C5.  [Upgrade(N)] for a positive [N] on a database whose stored version
    [V] is [N] or more returns [V] (which is [N] when the database is at
    [N]) and no error, and returns the database as it was: nothing was
    sent to the connection.  A second call gives the same. *)
Theorem Upgrade_at_target_is_noop N db V :
  0 < N ->
  Version drv db = (V, None) ->
  N <= V ->
  Upgrade drv N db = Returned ((V, None), db)
  /\ ('(_, db1) ← Upgrade drv N db; Upgrade drv N db1) = Returned ((V, None), db)
  /\ (V = N -> Upgrade drv N db = Returned ((N, None), db)).
Proof.
  intros HN HV Hle.
  assert (H : Upgrade drv N db = Returned ((V, None), db)).
  { rewrite Upgrade_unfold. unfold Upgrade_body. rewrite HV.
    destruct ((0 <? N) && (N <=? V)) eqn:Hc; [done | lia]. }
  split; [done|]. split.
  - rewrite H. simpl. exact H.
  - intros <-. exact H.
Qed.

(** C8.  [Downgrade] follows the downgrade index from the stored version
    downwards: when the downgrade steps from [db] have been applied one
    after the other up to [db'] (each step, at a stored version [V] above
    the target, applies the file the index has for [V] and stores
    [V - 1]), and [db'] is at a version [V'] that is not above the target
    or has no file in the index, then [Downgrade] returns [V'] and no
    error, and leaves [db']. *)
Theorem Downgrade_follows_index target db db' V' :
  downgrade_run drv target db db' ->
  Version drv db' = (V', None) ->
  V' <= target \/ downgrades db' !! V' = None ->
  Downgrade drv target db = Returned ((V', None), db').
Proof.
  intros Hrun HV' Hstop.
  induction Hrun as [db|db db1 db2 V fn HV Habove Hfn Hstep Hrun IH].
  - rewrite Downgrade_unfold. unfold Downgrade_body. rewrite HV'.
    destruct (V' <=? target) eqn:Hc; [done|].
    destruct Hstop as [Hs | Hs]; [lia | by rewrite Hs].
  - rewrite Downgrade_unfold. unfold Downgrade_body. rewrite HV.
    destruct (V <=? target) eqn:Hc; [lia|].
    rewrite Hfn.
    apply runFileAndSetVersion_success in Hstep. rewrite Hstep.
    by apply IH.
Qed.


End MigrationClaims.

(** ** The statement loader *)

Section LoaderFacts.
Context {Data : Type}.
Variable drv : Driver Data.
Implicit Types db : DB Data.
Import GoStrings GoRegexp Lines.
Local Open Scope list_scope.

Lemma name_line_comment t sub :
  name_line t = Some sub -> rxComment_MatchString (TrimSpace t) = true.
Proof.
  unfold name_line, rxNameline_FindStringSubmatch, rxComment_MatchString, HasPrefix.
  destruct (cutPrefix "--" (TrimSpace t)); [done | intros [=]].
Qed.

Lemma name_line_nonblank t sub : name_line t = Some sub -> blank_line t = false.
Proof.
  unfold name_line, blank_line.
  destruct (TrimSpace t); simpl; [intros [=] | reflexivity].
Qed.

Lemma name_line_not_sql t sub : name_line t = Some sub -> sql_line t = false.
Proof.
  intros H. unfold sql_line. rewrite (name_line_comment _ _ H).
  by rewrite andb_false_r.
Qed.

(** The capture [(\S+)] is never empty. *)
Lemma name_line_sub t sub : name_line t = Some sub -> sub <> EmptyString.
Proof.
  unfold name_line, rxNameline_FindStringSubmatch.
  repeat case_match; congruence.
Qed.


(** One turn of the loop, by the kind of the line. *)
Lemma loop_blank name fn t rest v db :
  blank_line t = true ->
  loadStatements_loop drv name fn (t :: rest) v db
  = loadStatements_loop drv name fn rest v db.
Proof. unfold blank_line. simpl. by intros ->. Qed.

Lemma loop_name name fn t sub rest v db :
  name_line t = Some sub ->
  loadStatements_loop drv name fn (t :: rest) v db
  = match prepareBuffered drv name fn (subname v) (lines v) (lno v + 1) db with
    | (Some err, db') => (inl err, db')
    | (None, db') =>
        loadStatements_loop drv name fn rest
          {| subname := sub; lines := []; lno := lno v + 1 |} db'
    end.
Proof.
  intros H. pose proof (name_line_nonblank _ _ H) as Hb.
  unfold blank_line, name_line in *. simpl. by rewrite Hb, H.
Qed.

Lemma loop_sql name fn t rest v db :
  sql_line t = true ->
  loadStatements_loop drv name fn (t :: rest) v db
  = loadStatements_loop drv name fn rest
      {| subname := subname v; lines := lines v ++ [TrimSpace t];
         lno := lno v + 1 |} db.
Proof.
  unfold sql_line, blank_line. intros [Hb Hc]%andb_true_iff.
  apply negb_true_iff in Hb, Hc. simpl. rewrite Hb, Hc.
  unfold rxNameline_FindStringSubmatch.
  unfold rxComment_MatchString, HasPrefix in Hc.
  destruct (cutPrefix "--" (TrimSpace t)); done.
Qed.

Lemma loop_comment name fn t rest v db :
  blank_line t = false -> name_line t = None -> sql_line t = false ->
  loadStatements_loop drv name fn (t :: rest) v db
  = loadStatements_loop drv name fn rest
      {| subname := subname v; lines := lines v; lno := lno v + 1 |} db.
Proof.
  unfold sql_line, blank_line, name_line. intros Hb Hn Hs.
  rewrite Hb in Hs. simpl in Hs. apply negb_false_iff in Hs.
  simpl. by rewrite Hb, Hn, Hs.
Qed.


Lemma blank_name_line t : blank_line t = true -> name_line t = None.
Proof.
  unfold blank_line, name_line. by destruct (TrimSpace t).
Qed.

Lemma blank_sql_line t : blank_line t = true -> sql_line t = false.
Proof. unfold sql_line. by intros ->. Qed.

(** The four kinds of line. *)
Lemma line_cases t :
  blank_line t = true
  \/ (exists sub, name_line t = Some sub)
  \/ (name_line t = None /\ sql_line t = true)
  \/ (blank_line t = false /\ name_line t = None /\ sql_line t = false).
Proof.
  destruct (blank_line t) eqn:Hb; [by left|].
  destruct (name_line t) as [sub|] eqn:Hn; [right; left; eauto|].
  destruct (sql_line t) eqn:Hs; [right; right; left | right; right; right]; done.
Qed.

Lemma nonblank_count_cons t rest :
  nonblank_count (t :: rest)
  = (if blank_line t then 0 else 1) + nonblank_count rest.
Proof.
  unfold nonblank_count. rewrite filter_cons.
  destruct (decide (blank_line t = false)) as [->| ->%not_false_is_true];
    simpl; lia.
Qed.

Lemma nonblank_count_all text :
  Forall (fun t => blank_line t = false) text ->
  nonblank_count text = Z.of_nat (length text).
Proof.
  induction 1 as [|t rest Ht _ IH]; [done|].
  rewrite nonblank_count_cons, Ht, IH. simpl length. lia.
Qed.


Lemma prepareBuffered_nil name fn sub n db :
  prepareBuffered drv name fn sub [] n db = (None, db).
Proof. done. Qed.


Lemma prepareBuffered_err name fn sub buf n db err db' :
  prepareBuffered drv name fn sub buf n db = (Some err, db') ->
  db' = db /\ buf <> []
  /\ exists e,
       drv_prepare_err drv (Join buf newline) (committed (conn db)) = Some e
       /\ err = Errorfw (MsgPrepare fn n (queryNameOf name sub)) (ErrDriver e).
Proof.
  unfold prepareBuffered, sql_Prepare. intros H.
  destruct buf as [|l buf]; [done|].
  destruct (drv_prepare_err _ _ _) as [e|] eqn:He; simplify_eq.
  split; [done|]. split; [done|]. eauto.
Qed.

Lemma prepareBuffered_conn name fn sub buf n db r db' :
  prepareBuffered drv name fn sub buf n db = (r, db') -> conn db' = conn db.
Proof.
  unfold prepareBuffered. intros H.
  repeat case_match; by simplify_eq.
Qed.

Lemma loop_conn name fn text v db r db' :
  loadStatements_loop drv name fn text v db = (r, db') -> conn db' = conn db.
Proof.
  revert v db. induction text as [|t rest IH]; intros v db H.
  { by simplify_eq/=. }
  destruct (line_cases t) as [Hb | [[sub Hn] | [[Hn Hs] | (Hb & Hn & Hs)]]].
  - rewrite loop_blank in H by done. eauto.
  - rewrite (loop_name _ _ _ sub) in H by done.
    destruct (prepareBuffered _ _ _ _ _ _ _) as [[e|] db1] eqn:Hp.
    + simplify_eq. by eapply prepareBuffered_conn.
    + apply IH in H. rewrite H. by eapply prepareBuffered_conn.
  - rewrite loop_sql in H by done. eauto.
  - rewrite loop_comment in H by done. eauto.
Qed.

(** What the loop has in its variables when it ends without an error: the
    fragment that is still open, and the number of non-blank lines. *)
Lemma loop_vars name fn text v db v' db' :
  loadStatements_loop drv name fn text v db = (inr v', db') ->
  (subname v', lines v') = open_fragment (subname v) (lines v) text
  /\ lno v' = lno v + nonblank_count text.
Proof.
  revert v db. induction text as [|t rest IH]; intros v db H.
  { simplify_eq/=. split; [done | unfold nonblank_count; simpl; lia]. }
  rewrite nonblank_count_cons. simpl open_fragment.
  destruct (line_cases t) as [Hb | [[sub Hn] | [[Hn Hs] | (Hb & Hn & Hs)]]].
  - rewrite loop_blank in H by done.
    rewrite Hb, (blank_name_line _ Hb), (blank_sql_line _ Hb).
    apply IH in H as [-> ->]. split; [done | lia].
  - rewrite (loop_name _ _ _ sub) in H by done.
    rewrite Hn, (name_line_nonblank _ _ Hn).
    destruct (prepareBuffered _ _ _ _ _ _ _) as [[e|] db1]; [done|].
    apply IH in H as [-> ->]. simpl. split; [done | lia].
  - rewrite loop_sql in H by done. rewrite Hn, Hs.
    assert (blank_line t = false) as ->.
    { unfold sql_line in Hs. by destruct (blank_line t). }
    apply IH in H as [-> ->]. simpl. split; [done | lia].
  - rewrite loop_comment in H by done. rewrite Hn, Hs, Hb.
    apply IH in H as [-> ->]. simpl. split; [done | lia].
Qed.

(** The loop returns an error only at a marker line, from the
    preparation of the fragment collected before it. *)
Lemma loop_error name fn text v db err db' :
  loadStatements_loop drv name fn text v db = (inl err, db') ->
  exists pre m sub post v1,
    text = pre ++ m :: post
    /\ name_line m = Some sub
    /\ loadStatements_loop drv name fn pre v db = (inr v1, db')
    /\ prepareBuffered drv name fn (subname v1) (lines v1) (lno v1 + 1) db'
       = (Some err, db').
Proof.
  revert v db. induction text as [|t rest IH]; intros v db H; [done|].
  destruct (line_cases t) as [Hb | [[sub Hn] | [[Hn Hs] | (Hb & Hn & Hs)]]].
  - rewrite loop_blank in H by done.
    apply IH in H as (pre & m & sub & post & v1 & -> & Hm & Hpre & Hp).
    exists (t :: pre), m, sub, post, v1. rewrite loop_blank by done. done.
  - rewrite (loop_name _ _ _ sub) in H by done.
    destruct (prepareBuffered _ _ _ _ _ _ _) as [[e|] db1] eqn:Hp.
    + simplify_eq.
      pose proof (prepareBuffered_err _ _ _ _ _ _ _ _ Hp) as [-> _].
      exists [], t, sub, rest, v. done.
    + apply IH in H as (pre & m & sub' & post & v1 & -> & Hm & Hpre & Hp').
      exists (t :: pre), m, sub', post, v1.
      simpl app. rewrite (loop_name _ _ _ sub) by done. rewrite Hp. done.
  - rewrite loop_sql in H by done.
    apply IH in H as (pre & m & sub & post & v1 & -> & Hm & Hpre & Hp).
    exists (t :: pre), m, sub, post, v1. simpl app. rewrite loop_sql by done. done.
  - rewrite loop_comment in H by done.
    apply IH in H as (pre & m & sub & post & v1 & -> & Hm & Hpre & Hp).
    exists (t :: pre), m, sub, post, v1. simpl app.
    rewrite loop_comment by done. done.
Qed.




(** Byte strings: append and reversal. *)
Lemma append_cons c (a b : string) :
  (String c a ++ b)%string = String c (a ++ b)%string.
Proof. reflexivity. Qed.

Lemma append_nil_r (a : string) : (a ++ EmptyString)%string = a.
Proof. induction a as [|c a IH]; [done|]. by rewrite append_cons, IH. Qed.

Lemma append_assoc (a b c : string) :
  ((a ++ b) ++ c)%string = (a ++ (b ++ c))%string.
Proof.
  induction a as [|x a IH]; [done|]. by rewrite !append_cons, IH.
Qed.


Lemma rev_append_app (s acc : string) :
  rev_append s acc = (rev s ++ acc)%string.
Proof.
  unfold rev. revert acc. induction s as [|c s IH]; intros acc; [done|].
  change (rev_append (String c s) acc) with (rev_append s (String c acc)).
  change (rev_append (String c s) EmptyString)
    with (rev_append s (String c EmptyString)).
  rewrite IH, (IH (String c EmptyString)), append_assoc. done.
Qed.

Lemma rev_cons c (s : string) :
  rev (String c s) = (rev s ++ String c EmptyString)%string.
Proof.
  unfold rev at 1.
  change (rev_append (String c s) EmptyString)
    with (rev_append s (String c EmptyString)).
  apply rev_append_app.
Qed.

Lemma rev_app (a b : string) : rev (a ++ b)%string = (rev b ++ rev a)%string.
Proof.
  induction a as [|c a IH].
  - by rewrite append_nil_r.
  - rewrite append_cons, !rev_cons, IH, append_assoc. done.
Qed.

Lemma rev_involutive (s : string) : rev (rev s) = s.
Proof.
  induction s as [|c s IH]; [done|].
  rewrite rev_cons, rev_app, IH. done.
Qed.

Lemma cutPrefix_app (p s : string) : cutPrefix p (p ++ s)%string = Some s.
Proof.
  induction p as [|c p IH]; [done|].
  rewrite append_cons. simpl. by rewrite Ascii.eqb_refl.
Qed.

Lemma HasSuffix_app (name ext : string) : HasSuffix (name ++ ext)%string ext = true.
Proof.
  unfold HasSuffix, HasPrefix. by rewrite rev_app, cutPrefix_app.
Qed.

Lemma TrimSuffix_app (name ext : string) : TrimSuffix (name ++ ext)%string ext = name.
Proof.
  unfold TrimSuffix. by rewrite rev_app, cutPrefix_app, rev_involutive.
Qed.

End LoaderFacts.

Section LoaderClaims.
Context {Data : Type}.
Variable drv : Driver Data.
Implicit Types db : DB Data.
Import GoStrings GoRegexp Lines.
Local Open Scope list_scope.
#[local] Arguments loadStatements_loop : simpl never.
#[local] Arguments prepareBuffered : simpl never.

(** When the file for [name] loads and still gives no statement [name],
    [named] returns a nil statement and a nil error, and the callers
    dereference it. *)
Lemma named_nil_without_error name args db db' :
  statements db !! name = None ->
  loadStatements drv name db = (None, db') ->
  statements db' !! name = None ->
  named drv name db = ((None, None), db')
  /\ Exec drv name args db = Panicked
  /\ Query drv name args db = Panicked
  /\ QueryRow drv name args db = Panicked.
Proof.
  intros Hmiss Hload Hstill.
  assert (Hn : named drv name db = ((None, None), db')).
  { unfold named. by rewrite Hmiss, Hload, Hstill. }
  unfold Exec, Query, QueryRow. by rewrite Hn.
Qed.



(** C6, amended.  In a query file without blank lines, when the SQL of a
    fragment fails to prepare, the error carries the name of the file and
    the 1-based number of the line at which the fragment was closed: the
    next marker line, or the number of lines of the file when the fragment
    runs to the end of the file.  [pre] is the part of the file before
    that point, and the fragment is the one open after [pre].  The load
    stops there: the [DB] is as the lines of [pre] left it.  The files
    that follow in the directory are still loaded, from that [DB]. *)
Theorem prepare_error_location name db qfs f text serr fn n qn cause db' :
  queryFS db = Some qfs ->
  FS_Open qfs (name ++ ".sql")%string = inr f ->
  GoBufio.Scan f = (text, serr) ->
  Forall (fun t => blank_line t = false) text ->
  loadStatements drv name db = (Some (Errorfw (MsgPrepare fn n qn) cause), db') ->
  fn = (name ++ ".sql")%string
  /\ (exists pre,
        ((exists m sub post,
            text = pre ++ m :: post /\ name_line m = Some sub
            /\ n = Z.of_nat (length pre) + 1)
         \/ (text = pre /\ serr = None /\ n = Z.of_nat (length text)))
        /\ qn = queryNameOf name (fst (open_fragment EmptyString [] pre))
        /\ (exists e,
              cause = ErrDriver e
              /\ drv_prepare_err drv
                   (Join (snd (open_fragment EmptyString [] pre)) newline)
                   (committed (conn db)) = Some e)
        /\ (exists v,
              loadStatements_loop drv name fn pre
                {| subname := EmptyString; lines := []; lno := 0 |} db
              = (inr v, db')))
  /\ (forall rest,
        loadAllStatements_loop drv
          ({| Name := (name ++ ".sql")%string; IsDir := false |} :: rest) db
        = (let '(errs, db2) := loadAllStatements_loop drv rest db' in
           (Errorfw (MsgPrepare fn n qn) cause :: errs, db2))).
Proof.
  intros Hq Ho Hscan Hnb Hload.
  assert (Hsib : forall rest,
    loadAllStatements_loop drv
      ({| Name := (name ++ ".sql")%string; IsDir := false |} :: rest) db
    = (let '(errs, db2) := loadAllStatements_loop drv rest db' in
       (Errorfw (MsgPrepare fn n qn) cause :: errs, db2))).
  { intros rest. simpl. rewrite HasSuffix_app, TrimSuffix_app. simpl.
    by rewrite Hload. }
  unfold loadStatements in Hload. rewrite Hq, Ho, Hscan in Hload.
  destruct (loadStatements_loop _ _ _ _ _ _) as [[err|v] db1] eqn:Hloop.
  - injection Hload as -> ->.
    apply loop_error in Hloop
      as (pre & m & sub & post & v1 & -> & Hm & Hpre & Hp).
    pose proof (loop_conn _ _ _ _ _ _ _ _ Hpre) as Hconn.
    apply prepareBuffered_err in Hp as (_ & _ & e & He & Heq).
    injection Heq as Hfn Hn Hqn Hc. subst fn n qn cause.
    apply loop_vars in Hpre as Hvars. destruct Hvars as [Hfrag Hlno].
    apply Forall_app in Hnb as [Hnb _].
    rewrite (nonblank_count_all _ Hnb) in Hlno. simpl in Hlno, Hfrag.
    split; [done|]. split; [|exact Hsib].
    exists pre. rewrite <- Hfrag. simpl. rewrite <- Hconn.
    split; [left; exists m, sub, post; split; [done|]; split; [done | lia]|].
    split; [done|]. split; [eauto|]. eauto.
  - destruct serr as [e|]; [done|].
    pose proof (loop_conn _ _ _ _ _ _ _ _ Hloop) as Hconn.
    apply prepareBuffered_err in Hload as (-> & _ & e & He & Heq).
    injection Heq as Hfn Hn Hqn Hc. subst fn n qn cause.
    apply loop_vars in Hloop as Hvars. destruct Hvars as [Hfrag Hlno].
    rewrite (nonblank_count_all _ Hnb) in Hlno. simpl in Hlno, Hfrag.
    split; [done|]. split; [|exact Hsib].
    exists text. rewrite <- Hfrag. simpl. rewrite <- Hconn.
    split; [right; split; [done|]; split; [done | lia]|].
    split; [done|]. split; [eauto|]. eauto.
Qed.

End LoaderClaims.

(** ** The constructor *)

Section ConstructorClaims.
Context {Data : Type}.
Variable drv : Driver Data.
Implicit Types db : DB Data.
Local Open Scope list_scope.

Lemma version_updates_script (c : Conn Data) (st : Store Data) content :
  version_updates {| committed := st; executed := executed c ++ [SqlText content] |}
  = version_updates c.
Proof.
  unfold version_updates. simpl. rewrite filter_app. simpl.
  rewrite filter_cons_False by done. rewrite filter_nil. apply app_nil_r.
Qed.

(** An initialization script returns, and sends no version update. *)
Lemma runOneScript_returns filename db ifs :
  initFS db = Some ifs ->
  exists err db',
    runOneScript drv filename db = Returned (err, db')
    /\ same_but_conn db db'
    /\ version_updates (conn db') = version_updates (conn db).
Proof.
  intros Hi. unfold runOneScript, sql_Begin, tx_Exec, tx_Commit, tx_Rollback, log_cmd.
  rewrite Hi.
  repeat (case_match; simplify_eq/=);
    eexists _, _; (split; [reflexivity|]); (split; [done|]);
    first [done | apply version_updates_script].
Qed.

Lemma runInitScripts_loop_returns entries db ifs :
  initFS db = Some ifs ->
  exists errs db',
    runInitScripts_loop drv entries db = Returned (errs, db')
    /\ same_but_conn db db'
    /\ version_updates (conn db') = version_updates (conn db).
Proof.
  revert db. induction entries as [|entry rest IH]; intros db Hi.
  { eexists _, _. split; [reflexivity|]. done. }
  simpl. destruct (IsDir entry); [by apply IH|].
  destruct (negb _); [by apply IH|].
  destruct (runOneScript_returns (Name entry) db ifs Hi)
    as (err & db1 & -> & Hsame & Hlog).
  assert (Hi1 : initFS db1 = Some ifs).
  { destruct Hsame as (_ & _ & _ & -> & _). done. }
  destruct (IH db1 Hi1) as (errs & db2 & Hrest & Hsame2 & Hlog2).
  simpl. rewrite Hrest. simpl.
  eexists _, _. split; [reflexivity|]. split; [|congruence].
  destruct Hsame as (? & ? & ? & ? & ? & ?).
  destruct Hsame2 as (? & ? & ? & ? & ? & ?).
  repeat split; congruence.
Qed.

Lemma loadStatements_conn name db r db' :
  loadStatements drv name db = (r, db') -> conn db' = conn db.
Proof.
  unfold loadStatements. intros H.
  destruct (queryFS db) as [qfs|]; [|by simplify_eq].
  destruct (FS_Open qfs _) as [e|f]; [by simplify_eq|].
  destruct (GoBufio.Scan f) as [text serr].
  destruct (loadStatements_loop _ _ _ _ _ _) as [[err|v] db1] eqn:Hloop.
  - simplify_eq. by eapply loop_conn.
  - apply loop_conn in Hloop. destruct serr as [e|]; [by simplify_eq|].
    apply prepareBuffered_conn in H. congruence.
Qed.

Lemma loadAllStatements_loop_conn entries db errs db' :
  loadAllStatements_loop drv entries db = (errs, db') ->
  conn db' = conn db.
Proof.
  revert db errs db'. induction entries as [|entry rest IH]; intros db errs db' H.
  { by simplify_eq/=. }
  simpl in H. destruct (IsDir entry); [eauto|].
  destruct (negb _); [eauto|].
  destruct (loadStatements _ _ _) as [err db1] eqn:Hl.
  destruct (loadAllStatements_loop _ _ _) as [errs2 db2] eqn:Hr.
  apply loadStatements_conn in Hl. apply IH in Hr. simplify_eq. congruence.
Qed.

Lemma loadVersions_loop_frame entries db :
  conn (loadVersions_loop entries db) = conn db
  /\ versionFS (loadVersions_loop entries db) = versionFS db
  /\ initFS (loadVersions_loop entries db) = initFS db
  /\ queryFS (loadVersions_loop entries db) = queryFS db.
Proof.
  revert db. induction entries as [|e es IH]; intros db; [done|].
  simpl.
  repeat case_match;
    first [ apply IH
          | match goal with
            | |- context [loadVersions_loop es ?d] =>
                destruct (IH d) as (-> & -> & -> & ->); done
            end ].
Qed.

(** The four stages of [New], each under its guard. *)
Lemma New_versions_stage db :
  exists errs db',
    (if bool_decide (versionFS db ≠ None)
     then '(es, d') ← loadVersions db; mret (Some <$> es, d')
     else mret ([], db)) = Returned (errs, db')
    /\ conn db' = conn db /\ versionFS db' = versionFS db
    /\ initFS db' = initFS db /\ queryFS db' = queryFS db.
Proof.
  unfold loadVersions.
  destruct (versionFS db) as [vfs|] eqn:Hv; simpl.
  - destruct (fs_ReadDir vfs) as [e|entries]; simpl.
    + eexists _, _. split; [reflexivity|]. done.
    + eexists _, _. split; [reflexivity|].
      destruct (loadVersions_loop_frame entries db) as (-> & -> & -> & ->). done.
  - eexists _, _. split; [reflexivity|]. done.
Qed.

Lemma New_init_stage (noPreload : bool) db :
  exists errs db',
    (if bool_decide (initFS db ≠ None) && negb noPreload
     then '(es, d') ← runInitScripts drv db; mret (Some <$> es, d')
     else mret ([], db)) = Returned (errs, db')
    /\ same_but_conn db db'
    /\ version_updates (conn db') = version_updates (conn db)
    /\ (noPreload = true -> db' = db).
Proof.
  destruct noPreload; simpl.
  { rewrite andb_false_r. eexists _, _. split; [reflexivity|]. done. }
  rewrite andb_true_r. unfold runInitScripts.
  destruct (initFS db) as [ifs|] eqn:Hi; simpl.
  - destruct (fs_ReadDir ifs) as [e|entries]; simpl.
    + eexists _, _. split; [reflexivity|]. done.
    + destruct (runInitScripts_loop_returns entries db ifs Hi)
        as (errs & db' & -> & Hsame & Hlog).
      simpl. eexists _, _. split; [reflexivity|]. done.
  - eexists _, _. split; [reflexivity|]. done.
Qed.

Lemma New_preload_stage (noPreload : bool) db :
  exists errs db',
    (if bool_decide (queryFS db ≠ None) && negb noPreload
     then '(es, d') ← loadAllStatements drv db; mret (Some <$> es, d')
     else mret ([], db)) = Returned (errs, db')
    /\ conn db' = conn db.
Proof.
  destruct noPreload; simpl.
  { rewrite andb_false_r. eexists _, _. split; [reflexivity|]. done. }
  rewrite andb_true_r. unfold loadAllStatements.
  destruct (queryFS db) as [qfs|] eqn:Hq; simpl.
  - destruct (fs_ReadDir qfs) as [e|entries]; simpl.
    + eexists _, _. split; [reflexivity|]. done.
    + destruct (loadAllStatements_loop drv entries db) as [errs db'] eqn:Hl.
      simpl. eexists _, _. split; [reflexivity|].
      by eapply loadAllStatements_loop_conn.
  - eexists _, _. split; [reflexivity|]. done.
Qed.

Lemma New_upgrade_stage (maxVersion : Z) db :
  exists errs db',
    (if bool_decide (versionFS db ≠ None) && negb (maxVersion =? UpgradeNone)
     then '(r, d') ← Upgrade drv maxVersion db; mret ([snd r], d')
     else mret ([], db)) = Returned (errs, db').
Proof.
  destruct (versionFS db) as [vfs|] eqn:Hv; simpl.
  - destruct (negb _); simpl; [|eauto].
    destruct (Upgrade_returns drv maxVersion db vfs Hv) as (r & db' & ->).
    simpl. eauto.
  - eauto.
Qed.

(** [New] returns for every argument: none of its stages panics. *)
Lemma New_returns (c : option (Conn Data)) (opts : option Options) :
  exists d errs, New drv c opts = Returned (d, errs).
Proof.
  unfold New. destruct c as [c|]; [|eauto]. cbv zeta.
  match goal with
  | |- context [loadVersions ?d0] =>
      destruct (New_versions_stage d0) as (errs1 & d1 & -> & _)
  end.
  cbn [mbind outcome_bind].
  destruct (New_upgrade_stage (MaxVersion (default defaultOptions opts)) d1)
    as (errs2 & d2 & ->).
  cbn [mbind outcome_bind].
  destruct (New_init_stage (NoPreload (default defaultOptions opts)) d2)
    as (errs3 & d3 & -> & _).
  cbn [mbind outcome_bind].
  destruct (New_preload_stage (NoPreload (default defaultOptions opts)) d3)
    as (errs4 & d4 & -> & _).
  cbn [mbind outcome_bind mret outcome_ret]. eauto.
Qed.


End ConstructorClaims.

(** ** The claims on concrete databases *)

Section Examples.
Import Demo Lines GoStrings.
Local Open Scope list_scope.

Lemma gap_step1 : step_applied drv "1.up.sql" 1 gapDB gapDB1.
Proof. econstructor; reflexivity. Defined.

Lemma gap_step2 : step_applied drv "2.up.sql" 2 gapDB1 gapDB2.
Proof. econstructor; reflexivity. Defined.

Lemma gap_run : upgrade_run drv 0 gapDB gapDB2.
Proof.
  eapply (upgrade_run_cons drv 0 gapDB gapDB1 gapDB2 0 "1.up.sql");
    [reflexivity | lia | reflexivity | exact gap_step1 |].
  eapply (upgrade_run_cons drv 0 gapDB1 gapDB2 gapDB2 1 "2.up.sql");
    [reflexivity | lia | reflexivity | exact gap_step2 |].
  apply upgrade_run_nil.
Defined.

(** Upgrades for 1, 2 and 4, a database at version 0: [Upgrade(0)] reaches
    version 2 and returns no error. *)
Lemma Upgrade_stops_at_gap_example :
  upgrade_run drv 0 gapDB gapDB2
  /\ Version drv gapDB2 = (2, None)
  /\ upgrades gapDB2 !! (2 + 1) = None
  /\ Upgrade drv 0 gapDB = Returned ((2, None), gapDB2).
Proof.
  split; [exact gap_run|]. split; [reflexivity|]. split; [reflexivity|].
  apply (Upgrade_stops_at_gap drv 0 gapDB gapDB2 2 gap_run); reflexivity.
Defined.

(** At version 2, [Upgrade(2)] changes nothing, once or twice. *)
Lemma Upgrade_at_target_is_noop_example :
  0 < 2 /\ Version drv gapDB2 = (2, None) /\ 2 <= 2
  /\ Upgrade drv 2 gapDB2 = Returned ((2, None), gapDB2)
  /\ ('(_, db1) ← Upgrade drv 2 gapDB2; Upgrade drv 2 db1)
     = Returned ((2, None), gapDB2)
  /\ (2 = 2 -> Upgrade drv 2 gapDB2 = Returned ((2, None), gapDB2)).
Proof.
  split; [lia|]. split; [reflexivity|]. split; [lia|].
  apply (Upgrade_at_target_is_noop drv 2 gapDB2 2); [lia | reflexivity | lia].
Defined.

Lemma down_run : downgrade_run drv 0 downDB downDB1.
Proof.
  eapply (downgrade_run_cons drv 0 downDB downDB2 downDB1 3 "3.down.sql");
    [reflexivity | lia | reflexivity | econstructor; reflexivity |].
  eapply (downgrade_run_cons drv 0 downDB2 downDB1 downDB1 2 "2.down.sql");
    [reflexivity | lia | reflexivity | econstructor; reflexivity |].
  apply downgrade_run_nil.
Defined.

(** Downgrades for 3 and 2, a database at version 3: [Downgrade(0)] runs
    the files for 3 and for 2, and stops at version 1, which has none. *)
Lemma Downgrade_follows_index_example :
  downgrade_run drv 0 downDB downDB1
  /\ Version drv downDB1 = (1, None)
  /\ (1 <= 0 \/ downgrades downDB1 !! 1 = None)
  /\ Downgrade drv 0 downDB = Returned ((1, None), downDB1).
Proof.
  split; [exact down_run|]. split; [reflexivity|].
  split; [right; reflexivity|].
  apply (Downgrade_follows_index drv 0 downDB downDB1 1 down_run);
    [reflexivity | right; reflexivity].
Defined.






(** [bad.sql]: the fragment [a], whose SQL does not prepare, is closed by
    the marker line of [b], the third line. *)
Lemma prepare_error_location_example :
  queryFS queryDB = Some queryFS1
  /\ FS_Open queryFS1 "bad.sql"
     = inr (FileData ("-- name: a" ++ nl ++ "BAD" ++ nl
                      ++ "-- name: b" ++ nl ++ "SELECT 2" ++ nl)%string)
  /\ GoBufio.Scan (FileData ("-- name: a" ++ nl ++ "BAD" ++ nl
                             ++ "-- name: b" ++ nl ++ "SELECT 2" ++ nl)%string)
     = (bad_text, None)
  /\ Forall (fun t => blank_line t = false) bad_text
  /\ loadStatements drv "bad" queryDB
     = (Some (Errorfw (MsgPrepare "bad.sql" 3 "bad.a") (ErrDriver "syntax error")),
        queryDB)
  /\ (exists pre,
        ((exists m sub post,
            bad_text = pre ++ m :: post /\ name_line m = Some sub
            /\ 3 = Z.of_nat (length pre) + 1)
         \/ (bad_text = pre /\ @None error = None
             /\ 3 = Z.of_nat (length bad_text)))
        /\ "bad.a" = queryNameOf "bad"
                       (fst (open_fragment EmptyString [] pre))
        /\ (exists e,
              ErrDriver "syntax error" = ErrDriver e
              /\ drv_prepare_err drv
                   (Join (snd (open_fragment EmptyString [] pre))
                      newline)
                   (committed (conn queryDB)) = Some e)
        /\ (exists v,
              loadStatements_loop drv "bad" "bad.sql" pre
                {| subname := EmptyString; lines := []; lno := 0 |} queryDB
              = (inr v, queryDB)))
  /\ (forall rest,
        loadAllStatements_loop drv
          ({| Name := "bad.sql"; IsDir := false |} :: rest) queryDB
        = (let '(errs, db2) := loadAllStatements_loop drv rest queryDB in
           (Errorfw (MsgPrepare "bad.sql" 3 "bad.a") (ErrDriver "syntax error")
              :: errs, db2))).
Proof.
  assert (Hall : Forall (fun t => blank_line t = false) bad_text).
  { repeat constructor. }
  assert (Hload : loadStatements drv "bad" queryDB
     = (Some (Errorfw (MsgPrepare "bad.sql" 3 "bad.a") (ErrDriver "syntax error")),
        queryDB)).
  { vm_compute. reflexivity. }
  split; [reflexivity|]. split; [reflexivity|]. split; [reflexivity|].
  split; [exact Hall|]. split; [exact Hload|].
  destruct (prepare_error_location drv "bad" queryDB queryFS1 _ bad_text None
              "bad.sql" 3 "bad.a" (ErrDriver "syntax error") queryDB
              eq_refl eq_refl eq_refl Hall Hload) as (_ & Hpre & Hsib).
  split; [exact Hpre | exact Hsib].
Defined.

(** C6 as the specification has it fails.  In [bad.sql] the failing
    fragment [a] is introduced by the marker on line 1, and the error
    carries line 3.  In [gappy.sql], a blank line and a line of SQL that
    does not prepare, the fragment is unmarked and the file has two
    lines, and the error carries line 1. *)
Lemma prepare_error_line_counterexample :
  (GoBufio.Scan (FileData ("-- name: a" ++ nl ++ "BAD" ++ nl
                           ++ "-- name: b" ++ nl ++ "SELECT 2" ++ nl)%string)
   = (bad_text, None)
   /\ marker_lno "a" bad_text 1 = Some 1
   /\ loadStatements drv "bad" queryDB
      = (Some (Errorfw (MsgPrepare "bad.sql" 3 "bad.a") (ErrDriver "syntax error")),
         queryDB)
   /\ 3 <> 1)
  /\ (FS_Open queryFS1 "gappy.sql" = inr (FileData (nl ++ "BAD" ++ nl)%string)
      /\ GoBufio.Scan (FileData (nl ++ "BAD" ++ nl)%string)
         = ([EmptyString; "BAD"], None)
      /\ loadStatements drv "gappy" queryDB
         = (Some (Errorfw (MsgPrepare "gappy.sql" 1 "gappy")
                    (ErrDriver "syntax error")),
            queryDB)
      /\ 1 <> Z.of_nat (length [EmptyString; "BAD"])).
Proof.
  split.
  - split; [reflexivity|]. split; [reflexivity|].
    split; [vm_compute; reflexivity | lia].
  - split; [reflexivity|]. split; [reflexivity|].
    split; [vm_compute; reflexivity | simpl; lia].
Qed.

(** C2: the code does not do what the claim says.  [New] with lazy loading
    returns [queryDB], whose cache is empty; [two.sql] holds the fragments
    [a] and [b].  [named] for [two] loads the file, which caches [two.a]
    and [two.b], finds no statement [two], and returns a nil statement with
    a nil error.  After [New] with preloading it does the same. *)
Theorem named_returns_nil_without_error :
  New drv (Some (fresh 0)) (Some lazyOpts) = Returned (Some queryDB, None)
  /\ statements queryDB !! "two" = None
  /\ named drv "two" queryDB
     = ((None, None),
        with_cache queryDB [("two.a", "SELECT 1"); ("two.b", "SELECT 2")])
  /\ New drv (Some (fresh 0)) (Some eagerOpts) = Returned (Some eagerDB, None)
  /\ named drv "two" eagerDB = ((None, None), eagerDB).
Proof. repeat split; vm_compute; reflexivity. Qed.

(** C3: the code does not do what the claim says.  On the databases that
    [New] returns for these options, [Exec], [Query] and [QueryRow] for
    [two] call a method of the nil statement that [named] returned, which
    panics. *)
Theorem Exec_panics_on_nil_statement :
  New drv (Some (fresh 0)) (Some lazyOpts) = Returned (Some queryDB, None)
  /\ Exec drv "two" [] queryDB = Panicked
  /\ Query drv "two" [] queryDB = Panicked
  /\ QueryRow drv "two" [] queryDB = Panicked
  /\ New drv (Some (fresh 0)) (Some eagerOpts) = Returned (Some eagerDB, None)
  /\ Exec drv "two" [] eagerDB = Panicked.
Proof. repeat split; vm_compute; reflexivity. Qed.

End Examples.

(** ** More on the migration runner *)

Section MigrationExtras.
Context {Data : Type}.
Variable drv : Driver Data.
Implicit Types db : DB Data.
Local Open Scope list_scope.

Lemma Upgrade_loop_decomposes n target db r db' :
  Upgrade_loop drv n target db = Returned (r, db') ->
  exists dbm,
    upgrade_run drv target db dbm
    /\ Upgrade_body drv no_more target dbm = Returned (r, db').
Proof.
  revert db. induction n as [|n IH]; intros db H; [done|].
  rewrite Upgrade_loop_S in H. unfold Upgrade_body in H.
  destruct (Version drv db) as [V [e|]] eqn:HV.
  { exists db. split; [constructor|]. unfold Upgrade_body. by rewrite HV. }
  destruct ((0 <? target) && (target <=? V)) eqn:Hc.
  { exists db. split; [constructor|]. unfold Upgrade_body. by rewrite HV, Hc. }
  destruct (upgrades db !! (V + 1)) as [fn|] eqn:Hfn.
  2:{ exists db. split; [constructor|]. unfold Upgrade_body. by rewrite HV, Hc, Hfn. }
  destruct (runFileAndSetVersion drv fn (V + 1) db) as [[[e|] db1]| |] eqn:Hrun;
    try done.
  - exists db. split; [constructor|].
    unfold Upgrade_body. by rewrite HV, Hc, Hfn, Hrun.
  - apply IH in H as (dbm & Hruns & Hlast). exists dbm. split; [|done].
    eapply upgrade_run_cons; eauto; [lia|].
    by apply runFileAndSetVersion_success.
Qed.

Lemma Downgrade_loop_decomposes n target db r db' :
  Downgrade_loop drv n target db = Returned (r, db') ->
  exists dbm,
    downgrade_run drv target db dbm
    /\ Downgrade_body drv no_more target dbm = Returned (r, db').
Proof.
  revert db. induction n as [|n IH]; intros db H; [done|].
  rewrite Downgrade_loop_S in H. unfold Downgrade_body in H.
  destruct (Version drv db) as [V [e|]] eqn:HV.
  { exists db. split; [constructor|]. unfold Downgrade_body. by rewrite HV. }
  destruct (V <=? target) eqn:Hc.
  { exists db. split; [constructor|]. unfold Downgrade_body. by rewrite HV, Hc. }
  destruct (downgrades db !! V) as [fn|] eqn:Hfn.
  2:{ exists db. split; [constructor|]. unfold Downgrade_body. by rewrite HV, Hc, Hfn. }
  destruct (runFileAndSetVersion drv fn (V - 1) db) as [[[e|] db1]| |] eqn:Hrun;
    try done.
  - exists db. split; [constructor|].
    unfold Downgrade_body. by rewrite HV, Hc, Hfn, Hrun.
  - apply IH in H as (dbm & Hruns & Hlast). exists dbm. split; [|done].
    eapply downgrade_run_cons; eauto; [lia|].
    by apply runFileAndSetVersion_success.
Qed.

(** What the last iteration leaves: the store as it was, and everything
    else but the log of commands. *)
Lemma Upgrade_last_iteration target dbm r db' :
  Upgrade_body drv no_more target dbm = Returned (r, db') ->
  committed (conn db') = committed (conn dbm) /\ same_but_conn dbm db'.
Proof.
  unfold Upgrade_body, no_more. intros H.
  repeat (case_match; simplify_eq; try done);
    match goal with
    | Hr : runFileAndSetVersion _ _ _ _ = Returned (Some _, _) |- _ =>
        pose proof (runFileAndSetVersion_failure _ _ _ _ _ _ Hr);
        pose proof (runFileAndSetVersion_frame _ _ _ _ _ _ Hr); done
    end.
Qed.

Lemma Downgrade_last_iteration target dbm r db' :
  Downgrade_body drv no_more target dbm = Returned (r, db') ->
  committed (conn db') = committed (conn dbm) /\ same_but_conn dbm db'.
Proof.
  unfold Downgrade_body, no_more. intros H.
  repeat (case_match; simplify_eq; try done);
    match goal with
    | Hr : runFileAndSetVersion _ _ _ _ = Returned (Some _, _) |- _ =>
        pose proof (runFileAndSetVersion_failure _ _ _ _ _ _ Hr);
        pose proof (runFileAndSetVersion_frame _ _ _ _ _ _ Hr); done
    end.
Qed.

Lemma step_applied_frame fn v db db1 :
  step_applied drv fn v db db1 -> same_but_conn db db1.
Proof. intros [vfs content w _ _ _ _ _ _ ->]. done. Qed.

Lemma same_but_conn_trans db1 db2 db3 :
  same_but_conn db1 db2 -> same_but_conn db2 db3 -> same_but_conn db1 db3.
Proof.
  intros (? & ? & ? & ? & ? & ?) (? & ? & ? & ? & ? & ?).
  repeat split; congruence.
Qed.

Lemma upgrade_run_frame target db db' :
  upgrade_run drv target db db' ->
  same_but_conn db db'
  /\ user_version (committed (conn db)) <= user_version (committed (conn db')).
Proof.
  induction 1 as [db|db db1 db2 V fn HV Hceil Hfn Hstep Hrun [IHf IHv]].
  { split; [done | lia]. }
  apply Version_ok in HV as [_ ->].
  pose proof (step_applied_frame _ _ _ _ Hstep) as Hf.
  apply step_applied_version in Hstep as (Hv & _).
  split; [by eapply same_but_conn_trans | lia].
Qed.

Lemma downgrade_run_frame target db db' :
  downgrade_run drv target db db' ->
  same_but_conn db db'
  /\ user_version (committed (conn db')) <= user_version (committed (conn db))
  /\ Z.min (user_version (committed (conn db))) target
     <= user_version (committed (conn db')).
Proof.
  induction 1 as [db|db db1 db2 V fn HV Habove Hfn Hstep Hrun (IHf & IHv & IHt)].
  { split; [done|]. split; lia. }
  apply Version_ok in HV as [_ ->].
  pose proof (step_applied_frame _ _ _ _ Hstep) as Hf.
  apply step_applied_version in Hstep as (Hv & _).
  split; [by eapply same_but_conn_trans|]. split; lia.
Qed.


(** X1.  [Upgrade] and [Downgrade] change nothing of the [DB] but its
    connection: the statement cache, the version index and the file
    systems are as before, whatever the result. *)
Theorem migration_keeps_cache_and_index target db r db' :
  Upgrade drv target db = Returned (r, db')
  \/ Downgrade drv target db = Returned (r, db') ->
  same_but_conn db db'.
Proof.
  intros [H | H].
  - apply Upgrade_loop_decomposes in H as (dbm & Hrun & Hlast).
    apply upgrade_run_frame in Hrun as [Hf _].
    apply Upgrade_last_iteration in Hlast as [_ Hl].
    by eapply same_but_conn_trans.
  - apply Downgrade_loop_decomposes in H as (dbm & Hrun & Hlast).
    apply downgrade_run_frame in Hrun as [Hf _].
    apply Downgrade_last_iteration in Hlast as [_ Hl].
    by eapply same_but_conn_trans.
Qed.






(** A step whose error is [fs.ErrNotExist] has not touched the [DB]. *)
Lemma runFileAndSetVersion_not_exist fn v db err db' :
  runFileAndSetVersion drv fn v db = Returned (Some err, db') ->
  errors_Is_NotExist err = true ->
  db' = db.
Proof.
  unfold runFileAndSetVersion, sql_Begin, tx_Exec, tx_Commit, tx_Rollback, log_cmd.
  intros H. repeat (case_match; simplify_eq/=; try done).
Qed.


Lemma Downgrade_success_run target db K db' :
  Downgrade drv target db = Returned ((K, None), db') ->
  downgrade_run drv target db db' /\ Version drv db' = (K, None).
Proof.
  intros H. apply Downgrade_loop_decomposes in H as (dbm & Hrun & Hlast).
  unfold Downgrade_body, no_more in Hlast.
  destruct (Version drv dbm) as [V [e|]] eqn:HV; [by simplify_eq|].
  assert (db' = dbm /\ K = V) as [-> ->]; [|done].
  repeat (case_match; simplify_eq; try done).
  split; [|done]. by eapply runFileAndSetVersion_not_exist.
Qed.


Lemma script_of_frame db db' idx k :
  versionFS db' = versionFS db -> script_of db' idx k = script_of db idx k.
Proof. unfold script_of. by intros ->. Qed.


Lemma downto_cons V K : K < V -> downto V K = V :: downto (V - 1) K.
Proof.
  intros H. unfold downto. rewrite seqZ_cons by lia. simpl.
  rewrite Z.sub_0_r. f_equal.
  replace (Z.pred (V - K)) with (V - 1 - K) by lia.
  change (Z.succ 0) with (1 + 0).
  rewrite <- (fmap_add_seqZ 1 0). rewrite <- list_fmap_compose.
  apply list_fmap_ext. intros _ i _. simpl. lia.
Qed.

Lemma downgrade_run_log target db db' :
  downgrade_run drv target db db' ->
  executed (conn db')
  = executed (conn db)
    ++ downgrade_cmds db
         (downto (user_version (committed (conn db)))
                 (user_version (committed (conn db')))).
Proof.
  induction 1 as [db|db db1 db2 V fn HV Habove Hfn Hstep Hrun IH].
  { unfold downto. rewrite Z.sub_diag. unfold downgrade_cmds. simpl.
    by rewrite app_nil_r. }
  apply Version_ok in HV as [_ HV]. rewrite <- HV.
  pose proof (downgrade_run_frame _ _ _ Hrun) as (_ & Hle & _).
  destruct Hstep as [vfs content w Hv Ho _ _ _ _ ->]. simpl in *.
  rewrite IH. rewrite <- app_assoc. f_equal.
  rewrite (downto_cons V) by lia.
  assert (Hs : script_of db (downgrades db) V = Some content).
  { unfold script_of. by rewrite Hfn, Hv, Ho. }
  unfold downgrade_cmds. simpl. rewrite Hs. reflexivity.
Qed.


(** X7.  When [Downgrade] returns without an error and has taken the stored
    version from [V] down to [K], it has sent, in this order and nothing
    else, for each of the versions [V], [V - 1], ..., [K + 1] the script
    that the downgrade index names for it, followed by the update of the
    stored version to the one below. *)
Theorem Downgrade_sends_scripts_in_order target db K db' :
  Downgrade drv target db = Returned ((K, None), db') ->
  executed (conn db')
  = executed (conn db)
    ++ downgrade_cmds db (downto (user_version (committed (conn db))) K).
Proof.
  intros [Hrun [_ ->]%Version_ok]%Downgrade_success_run.
  by eapply downgrade_run_log.
Qed.

(** X8.  A script that the index names but the version directory does not
    hold stops the migration without an error: the step fails with
    [fs.ErrNotExist] before anything is sent to the database, [Upgrade]
    (or [Downgrade]) returns the stored version and a nil error, and the
    [DB] is as it was. *)
Theorem missing_script_stops_quietly fn v db vfs :
  versionFS db = Some vfs ->
  fs_find fn (fs_nodes vfs) = None ->
  runFileAndSetVersion drv fn v db
  = Returned (Some (Errorfw (MsgOpenSQL fn) (PathError "open" fn ErrNotExist)), db)
  /\ (forall target,
        Version drv db = (v - 1, None) ->
        upgrades db !! v = Some fn ->
        Upgrade drv target db = Returned ((v - 1, None), db))
  /\ (forall target,
        Version drv db = (v + 1, None) ->
        downgrades db !! (v + 1) = Some fn ->
        Downgrade drv target db = Returned ((v + 1, None), db)).
Proof.
  intros Hv Hfind.
  assert (Hrun : runFileAndSetVersion drv fn v db
    = Returned (Some (Errorfw (MsgOpenSQL fn) (PathError "open" fn ErrNotExist)), db)).
  { unfold runFileAndSetVersion, FS_Open. by rewrite Hv, Hfind. }
  split; [done|]. split.
  - intros target HV Hfn. rewrite Upgrade_unfold. unfold Upgrade_body.
    rewrite HV. destruct (_ && _); [done|].
    replace (v - 1 + 1) with v by lia. by rewrite Hfn, Hrun.
  - intros target HV Hfn. rewrite Downgrade_unfold. unfold Downgrade_body.
    rewrite HV. destruct (_ <=? _); [done|].
    replace (v + 1 - 1) with v by lia. by rewrite Hfn, Hrun.
Qed.

Lemma Upgrade_run_eq target db db' :
  upgrade_run drv target db db' ->
  Upgrade drv target db = Upgrade drv target db'.
Proof.
  induction 1 as [db|db db1 db2 V fn HV Hceil Hfn Hstep Hrun IH]; [done|].
  rewrite Upgrade_unfold. unfold Upgrade_body. rewrite HV.
  destruct ((0 <? target) && (target <=? V)) eqn:Hc; [lia|].
  rewrite Hfn. apply runFileAndSetVersion_success in Hstep. by rewrite Hstep.
Qed.

Lemma Downgrade_run_eq target db db' :
  downgrade_run drv target db db' ->
  Downgrade drv target db = Downgrade drv target db'.
Proof.
  induction 1 as [db|db db1 db2 V fn HV Habove Hfn Hstep Hrun IH]; [done|].
  rewrite Downgrade_unfold. unfold Downgrade_body. rewrite HV.
  destruct (V <=? target) eqn:Hc; [lia|].
  rewrite Hfn. apply runFileAndSetVersion_success in Hstep. by rewrite Hstep.
Qed.

(** X9.  When the stored version cannot be read, [Upgrade] and [Downgrade]
    return the error together with the version 0, also after steps that
    were applied: the applied steps stay, and the number returned is not
    the version reached. *)
Theorem unreadable_version_reports_zero target db dbm e :
  drv_get_version_err drv (committed (conn dbm)) = Some e ->
  (upgrade_run drv target db dbm ->
   Upgrade drv target db
   = Returned ((0, Some (Errorfw MsgQueryVersion (ErrDriver e))), dbm))
  /\ (downgrade_run drv target db dbm ->
      Downgrade drv target db
      = Returned ((0, Some (Errorfw MsgQueryVersion (ErrDriver e))), dbm)).
Proof.
  intros He. split; intros Hrun.
  - rewrite (Upgrade_run_eq _ _ _ Hrun), Upgrade_unfold.
    unfold Upgrade_body, Version. by rewrite He.
  - rewrite (Downgrade_run_eq _ _ _ Hrun), Downgrade_unfold.
    unfold Downgrade_body, Version. by rewrite He.
Qed.


End MigrationExtras.

(** ** More on the version index *)

Section IndexExtras.
Context {Data : Type}.
Implicit Types db : DB Data.
Import Index.
Local Open Scope list_scope.

Lemma loadVersions_loop_app l1 l2 db :
  loadVersions_loop (l1 ++ l2) db = loadVersions_loop l2 (loadVersions_loop l1 db).
Proof.
  revert db. induction l1 as [|e l1 IH]; intros db; [done|].
  simpl. repeat case_match; apply IH.
Qed.

Lemma loadVersions_one_upgrades e db k :
  upgrades (loadVersions_loop [e] db) !! k
  = if is_upgrade_file k e then Some (Name e) else upgrades db !! k.
Proof.
  unfold is_upgrade_file, vnum_of. simpl.
  destruct (IsDir e); [done|].
  destruct (0 <? _) eqn:Hpos; [|done].
  destruct (GoRegexp.rxUpgrade_MatchString (Name e)); simpl.
  - rewrite andb_true_r.
    destruct (_ =? k) eqn:Hk.
    + apply Z.eqb_eq in Hk as ->. apply lookup_insert_eq.
    + apply Z.eqb_neq in Hk. by apply lookup_insert_ne.
  - rewrite andb_false_r. by destruct (GoRegexp.rxDowngrade_MatchString (Name e)).
Qed.

Lemma loadVersions_one_downgrades e db k :
  downgrades (loadVersions_loop [e] db) !! k
  = if is_downgrade_file k e then Some (Name e) else downgrades db !! k.
Proof.
  unfold is_downgrade_file, vnum_of. simpl.
  destruct (IsDir e); [done|].
  destruct (0 <? _) eqn:Hpos; [|done].
  destruct (GoRegexp.rxUpgrade_MatchString (Name e)); simpl.
  - by rewrite andb_false_r.
  - rewrite andb_true_r.
    destruct (GoRegexp.rxDowngrade_MatchString (Name e)); simpl.
    + rewrite andb_true_r.
      destruct (_ =? k) eqn:Hk.
      * apply Z.eqb_eq in Hk as ->. apply lookup_insert_eq.
      * apply Z.eqb_neq in Hk. by apply lookup_insert_ne.
    + by rewrite andb_false_r.
Qed.

Lemma loadVersions_loop_upgrades entries db k :
  upgrades (loadVersions_loop entries db) !! k
  = match last (filter (fun e => is_upgrade_file k e = true) entries) with
    | Some e => Some (Name e)
    | None => upgrades db !! k
    end.
Proof.
  induction entries as [|e l IH] using rev_ind; [done|].
  rewrite loadVersions_loop_app, loadVersions_one_upgrades, filter_app.
  destruct (is_upgrade_file k e) eqn:He.
  - rewrite filter_cons_True, filter_nil by done. by rewrite last_snoc.
  - rewrite filter_cons_False, filter_nil by (by rewrite He). by rewrite app_nil_r.
Qed.

Lemma loadVersions_loop_downgrades entries db k :
  downgrades (loadVersions_loop entries db) !! k
  = match last (filter (fun e => is_downgrade_file k e = true) entries) with
    | Some e => Some (Name e)
    | None => downgrades db !! k
    end.
Proof.
  induction entries as [|e l IH] using rev_ind; [done|].
  rewrite loadVersions_loop_app, loadVersions_one_downgrades, filter_app.
  destruct (is_downgrade_file k e) eqn:He.
  - rewrite filter_cons_True, filter_nil by done. by rewrite last_snoc.
  - rewrite filter_cons_False, filter_nil by (by rewrite He). by rewrite app_nil_r.
Qed.

(** X11.  [loadVersions] files every plain entry of the version directory
    whose name holds a positive number: under the upgrades of that number
    when the name contains [.up.], else under its downgrades when the name
    contains [.down.].  For every version the index then names the last
    such entry of the listing, and keeps what it had when there is none:
    of two files for one version and direction the later one wins. *)
Theorem loadVersions_last_file_wins db vfs entries k :
  versionFS db = Some vfs ->
  fs_ReadDir vfs = inr entries ->
  exists db',
    loadVersions db = Returned ([], db')
    /\ upgrades db' !! k
       = match last (filter (fun e => is_upgrade_file k e = true) entries) with
         | Some e => Some (Name e)
         | None => upgrades db !! k
         end
    /\ downgrades db' !! k
       = match last (filter (fun e => is_downgrade_file k e = true) entries) with
         | Some e => Some (Name e)
         | None => downgrades db !! k
         end.
Proof.
  intros Hv Hdir. unfold loadVersions. rewrite Hv, Hdir.
  eexists. split; [reflexivity|].
  split; [apply loadVersions_loop_upgrades | apply loadVersions_loop_downgrades].
Qed.

Lemma Atoi_digits_le s : GoStrconv.Atoi_digits s <= GoStrconv.maxInt.
Proof. unfold GoStrconv.Atoi_digits. lia. Qed.

(** X12.  Every version that [loadVersions] adds to the index is positive
    and at most the largest [int], and the file it names is a plain entry
    of the version directory: a name without digits, or whose number is 0,
    is not indexed, and neither is a directory. *)
Theorem loadVersions_adds_positive_versions db vfs entries db' errs k fn :
  versionFS db = Some vfs ->
  fs_ReadDir vfs = inr entries ->
  loadVersions db = Returned (errs, db') ->
  (upgrades db' !! k = Some fn /\ upgrades db !! k <> Some fn)
  \/ (downgrades db' !! k = Some fn /\ downgrades db !! k <> Some fn) ->
  0 < k <= GoStrconv.maxInt
  /\ exists e, e ∈ entries /\ Name e = fn /\ IsDir e = false /\ vnum_of e = k.
Proof.
  intros Hv Hdir Hload Hnew.
  unfold loadVersions in Hload. rewrite Hv, Hdir in Hload. simplify_eq.
  assert (Hfile : exists e,
            e ∈ entries /\ Name e = fn
            /\ (is_upgrade_file k e = true \/ is_downgrade_file k e = true)).
  { destruct Hnew as [[Hin Hold] | [Hin Hold]].
    - rewrite loadVersions_loop_upgrades in Hin.
      destruct (last _) as [e|] eqn:Hlast; [|done].
      apply last_Some_elem_of, list_elem_of_filter in Hlast as [He Hmem].
      exists e. split; [done|]. split; [congruence | by left].
    - rewrite loadVersions_loop_downgrades in Hin.
      destruct (last _) as [e|] eqn:Hlast; [|done].
      apply last_Some_elem_of, list_elem_of_filter in Hlast as [He Hmem].
      exists e. split; [done|]. split; [congruence | by right]. }
  destruct Hfile as (e & Hmem & Hname & Hkind).
  assert (Hk : negb (IsDir e) = true /\ (0 <? vnum_of e) = true
               /\ (vnum_of e =? k) = true).
  { unfold is_upgrade_file, is_downgrade_file in Hkind.
    destruct Hkind as [H | H]; repeat (apply andb_true_iff in H as [H ?]); done. }
  destruct Hk as (Hd & Hpos & Heq).
  apply negb_true_iff in Hd. apply Z.ltb_lt in Hpos. apply Z.eqb_eq in Heq.
  split.
  - subst k. split; [done|]. apply Atoi_digits_le.
  - exists e. done.
Qed.

End IndexExtras.

(** ** More on the statement loader and the statement cache *)

Section LoaderExtras.
Context {Data : Type}.
Variable drv : Driver Data.
Implicit Types db : DB Data.
Import GoStrings GoRegexp Lines Index.
Local Open Scope list_scope.
#[local] Arguments loadStatements_loop : simpl never.
#[local] Arguments prepareBuffered : simpl never.

Lemma loop_is_fragments name fn text v db :
  loadStatements_loop drv name fn text v db
  = let '(frs, (sub, buf, n)) :=
      fragments_at (subname v) (lines v) (lno v) text in
    match prepare_all drv name fn frs db with
    | (Some err, db') => (inl err, db')
    | (None, db') => (inr {| subname := sub; lines := buf; lno := n |}, db')
    end.
Proof.
  revert v db. induction text as [|t rest IH]; intros v db.
  { simpl. by destruct v. }
  destruct (line_cases t) as [Hb | [[sub Hn] | [[Hn Hs] | (Hb & Hn & Hs)]]].
  - rewrite loop_blank by done. simpl. rewrite Hb. apply IH.
  - rewrite (loop_name _ _ _ _ sub) by done. simpl.
    rewrite (name_line_nonblank _ _ Hn), Hn.
    destruct (lines v) as [|l ls] eqn:Hl.
    + rewrite prepareBuffered_nil, IH. simpl.
      by destruct (fragments_at sub [] (lno v + 1) rest) as [frs [[? ?] ?]].
    + destruct (fragments_at sub [] (lno v + 1) rest) as [frs [[s' b'] n']] eqn:Hf.
      simpl.
      destruct (prepareBuffered _ _ _ _ _ _ _) as [[e|] db1]; [done|].
      rewrite IH. simpl. by rewrite Hf.
  - rewrite loop_sql by done. simpl.
    assert (blank_line t = false) as ->.
    { unfold sql_line in Hs. by destruct (blank_line t). }
    rewrite Hn, Hs. apply IH.
  - rewrite loop_comment by done. simpl. rewrite Hb, Hn, Hs. apply IH.
Qed.

Lemma prepare_all_app name fn l1 l2 db :
  prepare_all drv name fn (l1 ++ l2) db
  = match prepare_all drv name fn l1 db with
    | (Some err, db') => (Some err, db')
    | (None, db') => prepare_all drv name fn l2 db'
    end.
Proof.
  revert db. induction l1 as [|[[sub buf] n] l1 IH]; intros db; [done|].
  simpl. destruct (prepareBuffered _ _ _ _ _ _ _) as [[e|] db1]; [done|]. apply IH.
Qed.

(** X13.  [loadStatements] on a file that opens and scans to its end is the
    split of its lines into fragments followed by the preparation of the
    fragments, in their order in the file, up to the first that fails:
    what an earlier fragment cached stays when a later one fails. *)
Theorem loadStatements_prepares_fragments_in_order name db qfs f text :
  queryFS db = Some qfs ->
  FS_Open qfs (name ++ ".sql")%string = inr f ->
  GoBufio.Scan f = (text, None) ->
  loadStatements drv name db
  = prepare_all drv name (name ++ ".sql")%string (file_fragments text) db.
Proof.
  intros Hq Ho Hscan. unfold loadStatements, file_fragments.
  rewrite Hq, Ho, Hscan, loop_is_fragments. simpl.
  destruct (fragments_at EmptyString [] 0 text) as [frs [[sub buf] n]].
  destruct buf as [|l buf].
  - destruct (prepare_all _ _ _ _ _) as [[e|] db1]; [done|].
    simpl. by rewrite prepareBuffered_nil.
  - rewrite prepare_all_app.
    destruct (prepare_all _ _ _ frs _) as [[e|] db1]; [done|]. simpl.
    by destruct (prepareBuffered _ _ _ _ _ _ _) as [[e|] db2].
Qed.

Lemma cache_extended_refl name db : cache_extended name db db.
Proof. unfold cache_extended. naive_solver. Qed.

Lemma cache_extended_trans name db1 db2 db3 :
  cache_extended name db1 db2 -> cache_extended name db2 db3 ->
  cache_extended name db1 db3.
Proof.
  intros (? & ? & ? & ? & ? & ? & Hk1 & Hn1) (? & ? & ? & ? & ? & ? & Hk2 & Hn2).
  repeat split; try congruence.
  - intros q Hq. by apply Hk2, Hk1.
  - intros q s Hq. destruct (Hn2 q s Hq) as [Hold | Hnew]; [by apply Hn1 | by right].
Qed.

Lemma prepareBuffered_extends name fn sub buf n db r db' :
  prepareBuffered drv name fn sub buf n db = (r, db') ->
  cache_extended name db db'.
Proof.
  unfold prepareBuffered. intros H.
  destruct buf as [|l buf]; [simplify_eq; apply cache_extended_refl|].
  destruct (sql_Prepare _ _ _) as [e|s]; simplify_eq;
    [apply cache_extended_refl|].
  repeat split; try done; simpl.
  - intros q Hq. destruct (decide (queryNameOf name sub = q)) as [->|Hne].
    + rewrite lookup_insert_eq. eauto.
    + by rewrite lookup_insert_ne.
  - intros q s' Hq. destruct (decide (queryNameOf name sub = q)) as [<-|Hne].
    + right. eauto.
    + rewrite lookup_insert_ne in Hq by done. by left.
Qed.

Lemma prepare_all_extends name fn frs db r db' :
  prepare_all drv name fn frs db = (r, db') -> cache_extended name db db'.
Proof.
  revert db. induction frs as [|[[sub buf] n] frs IH]; intros db H.
  { simplify_eq/=. apply cache_extended_refl. }
  simpl in H.
  destruct (prepareBuffered _ _ _ _ _ _ _) as [[e|] db1] eqn:Hp.
  - simplify_eq. by eapply prepareBuffered_extends.
  - eapply cache_extended_trans; [by eapply prepareBuffered_extends | by apply IH].
Qed.

Lemma loadStatements_extends name db r db' :
  loadStatements drv name db = (r, db') -> cache_extended name db db'.
Proof.
  unfold loadStatements. intros H.
  destruct (queryFS db) as [qfs|]; [|simplify_eq; apply cache_extended_refl].
  destruct (FS_Open qfs _) as [e|f]; [simplify_eq; apply cache_extended_refl|].
  destruct (GoBufio.Scan f) as [text serr].
  rewrite loop_is_fragments in H. simpl in H.
  destruct (fragments_at EmptyString [] 0 text) as [frs [[sub buf] n]].
  destruct (prepare_all _ _ _ frs _) as [[e|] db1] eqn:Hall.
  - simplify_eq. by eapply prepare_all_extends.
  - apply prepare_all_extends in Hall. simpl in H.
    destruct serr as [e|]; [by simplify_eq|].
    eapply cache_extended_trans; [done | by eapply prepareBuffered_extends].
Qed.

(** X14.  Loading the file [name] never removes a statement from the cache
    and touches nothing else of the [DB], the connection included, also
    when it returns an error; every statement it adds or replaces is
    named [name] or [name.sub]. *)
Theorem loadStatements_only_adds_own_names name db r db' :
  loadStatements drv name db = (r, db') ->
  conn db' = conn db
  /\ (forall q, is_Some (statements db !! q) -> is_Some (statements db' !! q))
  /\ (forall q s, statements db' !! q = Some s ->
        statements db !! q = Some s
        \/ q = name
        \/ exists sub, sub <> EmptyString /\ q = (name ++ "." ++ sub)%string).
Proof.
  intros (Hc & _ & _ & _ & _ & _ & Hkeep & Hnew)%loadStatements_extends.
  split; [done|]. split; [done|].
  intros q s Hq. destruct (Hnew q s Hq) as [Hold | [sub ->]]; [by left|].
  right. destruct sub as [|c sub]; [by left|].
  right. exists (String c sub). done.
Qed.

Lemma takeWhile_all (f : ascii -> bool) (s : string) :
  Forall (fun c => f c = true) (list_ascii_of_string (takeWhile f s)).
Proof.
  induction s as [|c s IH]; simpl; [constructor|].
  destruct (f c) eqn:Hc; simpl; [by constructor | constructor].
Qed.

(** X15.  The sub-name that a marker line declares is the first word after
    [name:]: it is not empty and holds no white space of the class [\s].
    A marker line is a comment, so it is never part of the SQL of a
    statement. *)
Theorem marker_sub_name_is_a_word t sub :
  name_line t = Some sub ->
  sub <> EmptyString
  /\ Forall (fun c => rx_space c = false) (list_ascii_of_string sub)
  /\ sql_line t = false /\ blank_line t = false.
Proof.
  intros H. split; [by eapply name_line_sub|].
  split; [|split; [by eapply name_line_not_sql | by eapply name_line_nonblank]].
  unfold name_line, rxNameline_FindStringSubmatch in H.
  repeat case_match; simplify_eq.
  match goal with
  | Ht : takeWhile ?f ?r = _ |- _ =>
      pose proof (takeWhile_all f r) as Hall; rewrite Ht in Hall
  end.
  eapply Forall_impl; [exact Hall|]. intros c Hc. by apply negb_true_iff in Hc.
Qed.

(** X16.  Resolution is cached: when [named] returns a statement, the
    statement is in the cache of the [DB] it leaves, and a second call for
    the same name returns the same statement and leaves that [DB] as it
    is, without reading any file. *)
Theorem named_second_call_hits name db s db' :
  named drv name db = ((Some s, None), db') ->
  statements db' !! name = Some s
  /\ named drv name db' = ((Some s, None), db').
Proof.
  intros H.
  assert (Hin : statements db' !! name = Some s).
  { unfold named in H.
    destruct (statements db !! name) as [s0|] eqn:Hs; [by simplify_eq|].
    destruct (loadStatements drv name db) as [[e|] db1]; by simplify_eq. }
  split; [done|]. unfold named. by rewrite Hin.
Qed.


(** X18.  [Exec], [Query] and [QueryRow] panic in exactly one case: the
    name is not cached, its file loads without an error, and the cache
    still has no statement of that name afterwards.  In every other case
    they return. *)
Theorem Exec_panics_exactly_when name args db :
  let nil_statement :=
    statements db !! name = None
    /\ exists db', loadStatements drv name db = (None, db')
                   /\ statements db' !! name = None in
  (Exec drv name args db = Panicked <-> nil_statement)
  /\ (Query drv name args db = Panicked <-> nil_statement)
  /\ (QueryRow drv name args db = Panicked <-> nil_statement)
  /\ Exec drv name args db <> OutOfFuel.
Proof.
  intros nil_statement.
  assert (Hn : named drv name db = ((None, None), (named drv name db).2)
               <-> nil_statement).
  { unfold nil_statement, named.
    destruct (statements db !! name) as [s0|] eqn:Hs.
    { split; [by intros [=] | by intros [[=] _]]. }
    destruct (loadStatements drv name db) as [[e|] db1]; simpl.
    - split; [by intros [=] | by intros (_ & db' & [=] & _)].
    - split.
      + intros [= Hnone]. split; [done|]. by exists db1.
      + intros (_ & db' & [= <-] & ->). done. }
  destruct (named drv name db) as [[[s|] [e|]] db1] eqn:Hnamed; simpl in Hn;
    unfold Exec, Query, QueryRow; rewrite Hnamed.
  all: repeat match goal with |- _ /\ _ => split end.
  all: try done.
  all: split; intros Hx;
         first [ done
               | by apply Hn
               | by apply Hn in Hx
               | by repeat case_match ].
Qed.

Lemma is_sql_file_true e :
  is_sql_file e = true <-> IsDir e = false /\ HasSuffix (Name e) ".sql" = true.
Proof.
  unfold is_sql_file. rewrite andb_true_iff, negb_true_iff. done.
Qed.

Lemma is_sql_file_false e :
  is_sql_file e <> true -> IsDir e = true \/ negb (HasSuffix (Name e) ".sql") = true.
Proof.
  unfold is_sql_file. destruct (IsDir e), (HasSuffix (Name e) ".sql"); simpl; auto.
Qed.

Lemma loadAllStatements_loop_skip entries db :
  loadAllStatements_loop drv entries db
  = loadAllStatements_loop drv
      (filter (fun e => is_sql_file e = true) entries) db.
Proof.
  revert db. induction entries as [|e rest IH]; intros db; [done|].
  destruct (decide (is_sql_file e = true)) as [He|He].
  - rewrite filter_cons_True by done.
    apply is_sql_file_true in He as [Hd Hs]. simpl. rewrite Hd, Hs. simpl.
    destruct (loadStatements _ _ _) as [err db1]. by rewrite IH.
  - rewrite filter_cons_False by done. simpl.
    apply is_sql_file_false in He as [-> | Hs]; [apply IH|].
    destruct (IsDir e); [apply IH|]. rewrite Hs. apply IH.
Qed.

Lemma loadAllStatements_loop_app l1 l2 db :
  loadAllStatements_loop drv (l1 ++ l2) db
  = let '(errs1, db1) := loadAllStatements_loop drv l1 db in
    let '(errs2, db2) := loadAllStatements_loop drv l2 db1 in
    (errs1 ++ errs2, db2).
Proof.
  revert db. induction l1 as [|e l1 IH]; intros db.
  { simpl. by destruct (loadAllStatements_loop drv l2 db). }
  simpl. destruct (IsDir e); [apply IH|].
  destruct (negb _); [apply IH|].
  destruct (loadStatements _ _ _) as [err db1]. rewrite IH.
  destruct (loadAllStatements_loop drv l1 db1) as [errs1 db2].
  destruct (loadAllStatements_loop drv l2 db2) as [errs2 db3].
  by destruct err.
Qed.

Lemma loadAllStatements_loop_bound entries db errs db' :
  loadAllStatements_loop drv entries db = (errs, db') ->
  (length errs <= length (filter (fun e => is_sql_file e = true) entries))%nat
  /\ conn db' = conn db
  /\ (forall q, is_Some (statements db !! q) -> is_Some (statements db' !! q)).
Proof.
  rewrite loadAllStatements_loop_skip.
  generalize (filter (fun e => is_sql_file e = true) entries). clear entries.
  intros entries.
  revert db errs db'. induction entries as [|e rest IH]; intros db errs db' H.
  { simplify_eq/=. done. }
  simpl in H.
  destruct (IsDir e);
    [apply IH in H as (? & ? & ?); simpl; split; [lia | done]|].
  destruct (negb _);
    [apply IH in H as (? & ? & ?); simpl; split; [lia | done]|].
  destruct (loadStatements _ _ _) as [err db1] eqn:Hl.
  destruct (loadAllStatements_loop drv rest db1) as [errs2 db2] eqn:Hr.
  apply IH in Hr as (Hlen & Hc & Hk).
  apply loadStatements_extends in Hl as (Hc1 & _ & _ & _ & _ & _ & Hk1 & _).
  simplify_eq. split; [destruct err; simpl; lia|].
  split; [congruence|]. intros q Hq. by apply Hk, Hk1.
Qed.

(** X19.  [loadAllStatements] looks only at the plain entries whose name
    ends in [.sql]: directories and other files are skipped.  It goes
    through the listing in order, each file loaded into the [DB] the
    files before it left, and after a file that fails the later files are
    still loaded. *)
Theorem preload_skips_and_continues l1 l2 db :
  loadAllStatements_loop drv (l1 ++ l2) db
  = (let '(errs1, db1) :=
       loadAllStatements_loop drv (filter (fun e => is_sql_file e = true) l1) db in
     let '(errs2, db2) :=
       loadAllStatements_loop drv (filter (fun e => is_sql_file e = true) l2) db1 in
     (errs1 ++ errs2, db2)).
Proof.
  rewrite loadAllStatements_loop_app.
  rewrite (loadAllStatements_loop_skip l1).
  destruct (loadAllStatements_loop drv (filter _ l1) db) as [errs1 db1].
  by rewrite (loadAllStatements_loop_skip l2).
Qed.

(** X20.  Preloading reports at most one error for each query file, sends
    nothing to the database, and removes no statement from the cache. *)
Theorem preload_one_error_per_file db qfs entries errs db' :
  queryFS db = Some qfs ->
  fs_ReadDir qfs = inr entries ->
  loadAllStatements drv db = Returned (errs, db') ->
  (length errs <= length (filter (fun e => is_sql_file e = true) entries))%nat
  /\ conn db' = conn db
  /\ (forall q, is_Some (statements db !! q) -> is_Some (statements db' !! q)).
Proof.
  intros Hq Hdir H. unfold loadAllStatements in H. rewrite Hq, Hdir in H.
  injection H as H. by apply loadAllStatements_loop_bound.
Qed.

End LoaderExtras.

(** ** More on initialization scripts and on the constructor *)

Section ConstructorExtras.
Context {Data : Type}.
Variable drv : Driver Data.
Implicit Types db : DB Data.
Import Index.
Local Open Scope list_scope.


Lemma runInitScripts_loop_skip entries db :
  runInitScripts_loop drv entries db
  = runInitScripts_loop drv (filter (fun e => is_sql_file e = true) entries) db.
Proof.
  revert db. induction entries as [|e rest IH]; intros db; [done|].
  destruct (decide (is_sql_file e = true)) as [He|He].
  - rewrite filter_cons_True by done.
    apply is_sql_file_true in He as [Hd Hs]. simpl. rewrite Hd, Hs. simpl.
    destruct (runOneScript _ _ _) as [[err db1]| |]; simpl; [|done|done].
    by rewrite IH.
  - rewrite filter_cons_False by done. simpl.
    apply is_sql_file_false in He as [-> | Hs]; [apply IH|].
    destruct (IsDir e); [apply IH|]. rewrite Hs. apply IH.
Qed.

Lemma runInitScripts_loop_app l1 l2 db :
  runInitScripts_loop drv (l1 ++ l2) db
  = ('(errs1, db1) ← runInitScripts_loop drv l1 db;
     '(errs2, db2) ← runInitScripts_loop drv l2 db1;
     mret (errs1 ++ errs2, db2)).
Proof.
  revert db. induction l1 as [|e l1 IH]; intros db.
  { simpl. by destruct (runInitScripts_loop drv l2 db) as [[? ?]| |]. }
  simpl. destruct (IsDir e); [apply IH|].
  destruct (negb _); [apply IH|].
  destruct (runOneScript _ _ _) as [[err db1]| |]; simpl; [|done|done].
  rewrite IH.
  destruct (runInitScripts_loop drv l1 db1) as [[errs1 db2]| |]; simpl; [|done|done].
  destruct (runInitScripts_loop drv l2 db2) as [[errs2 db3]| |]; simpl; [|done|done].
  by destruct err.
Qed.

(** X22.  [runInitScripts] looks only at the plain entries whose name ends
    in [.sql], in the order of the listing, each script run on the
    database the scripts before it left; a script that fails adds its
    error and the later scripts still run. *)
Theorem init_scripts_skip_and_continue l1 l2 db :
  runInitScripts_loop drv (l1 ++ l2) db
  = ('(errs1, db1) ←
       runInitScripts_loop drv (filter (fun e => is_sql_file e = true) l1) db;
     '(errs2, db2) ←
       runInitScripts_loop drv (filter (fun e => is_sql_file e = true) l2) db1;
     mret (errs1 ++ errs2, db2)).
Proof.
  rewrite runInitScripts_loop_app, (runInitScripts_loop_skip l1).
  destruct (runInitScripts_loop drv (filter _ l1) db) as [[errs1 db1]| |];
    simpl; [|done|done].
  by rewrite (runInitScripts_loop_skip l2).
Qed.

(** The stages of [New] once more, with what each keeps. *)
Lemma New_versions_stage_index db :
  exists errs db',
    (if bool_decide (versionFS db ≠ None)
     then '(es, d') ← loadVersions db; mret (Some <$> es, d')
     else mret ([], db)) = Returned (errs, db')
    /\ versionFS db' = versionFS db /\ initFS db' = initFS db
    /\ queryFS db' = queryFS db
    /\ (forall vfs entries k,
          versionFS db = Some vfs -> fs_ReadDir vfs = inr entries ->
          upgrades db' !! k
          = match last (filter (fun e => is_upgrade_file k e = true) entries) with
            | Some e => Some (Name e)
            | None => upgrades db !! k
            end
          /\ downgrades db' !! k
             = match last (filter (fun e => is_downgrade_file k e = true) entries) with
               | Some e => Some (Name e)
               | None => downgrades db !! k
               end)
    /\ (versionFS db = None -> db' = db).
Proof.
  unfold loadVersions.
  destruct (versionFS db) as [vfs|] eqn:Hv; simpl.
  - destruct (fs_ReadDir vfs) as [e|entries] eqn:Hdir; simpl.
    + eexists _, _. split; [reflexivity|]. repeat split; try done.
      all: simplify_eq; congruence.
    + eexists _, _. split; [reflexivity|].
      destruct (loadVersions_loop_frame entries db) as (_ & -> & -> & ->).
      repeat split; try done.
      all: match goal with
           | H1 : Some _ = Some _, H2 : fs_ReadDir _ = inr _ |- _ =>
               injection H1 as <-; rewrite Hdir in H2; injection H2 as <-
           end.
      * apply loadVersions_loop_upgrades.
      * apply loadVersions_loop_downgrades.
  - eexists _, _. split; [reflexivity|]. repeat split; done.
Qed.

Lemma New_upgrade_stage_frame (maxVersion : Z) db :
  exists errs db',
    (if bool_decide (versionFS db ≠ None) && negb (maxVersion =? UpgradeNone)
     then '(r, d') ← Upgrade drv maxVersion db; mret ([snd r], d')
     else mret ([], db)) = Returned (errs, db')
    /\ same_but_conn db db'.
Proof.
  assert (Hrefl : same_but_conn db db) by (by unfold same_but_conn).
  destruct (versionFS db) as [vfs|] eqn:Hv; simpl.
  - destruct (negb _); simpl; [|eexists _, _; split; [reflexivity | done]].
    destruct (Upgrade_returns drv maxVersion db vfs Hv) as (r & db' & Hup).
    rewrite Hup. simpl. eexists _, _. split; [reflexivity|].
    apply Upgrade_loop_decomposes in Hup as (dbm & Hrun & Hlast).
    apply upgrade_run_frame in Hrun as [Hf _].
    apply Upgrade_last_iteration in Hlast as [_ Hl].
    by eapply same_but_conn_trans.
  - eexists _, _; split; [reflexivity | done].
Qed.

Lemma loadAllStatements_loop_frame entries db errs db' :
  loadAllStatements_loop drv entries db = (errs, db') ->
  versionFS db' = versionFS db /\ upgrades db' = upgrades db
  /\ downgrades db' = downgrades db /\ initFS db' = initFS db
  /\ queryFS db' = queryFS db.
Proof.
  revert db errs db'. induction entries as [|e rest IH]; intros db errs db' H.
  { by simplify_eq/=. }
  simpl in H. destruct (IsDir e); [eauto|]. destruct (negb _); [eauto|].
  destruct (loadStatements _ _ _) as [err db1] eqn:Hl.
  destruct (loadAllStatements_loop drv rest db1) as [errs2 db2] eqn:Hr.
  apply IH in Hr as (? & ? & ? & ? & ?).
  apply loadStatements_extends in Hl as (_ & ? & ? & ? & ? & ? & _).
  simplify_eq. repeat split; congruence.
Qed.

Lemma New_preload_stage_frame (noPreload : bool) db :
  exists errs db',
    (if bool_decide (queryFS db ≠ None) && negb noPreload
     then '(es, d') ← loadAllStatements drv db; mret (Some <$> es, d')
     else mret ([], db)) = Returned (errs, db')
    /\ versionFS db' = versionFS db /\ upgrades db' = upgrades db
    /\ downgrades db' = downgrades db /\ initFS db' = initFS db
    /\ queryFS db' = queryFS db.
Proof.
  destruct noPreload; simpl.
  { rewrite andb_false_r. eexists _, _. split; [reflexivity|]. done. }
  rewrite andb_true_r. unfold loadAllStatements.
  destruct (queryFS db) as [qfs|] eqn:Hq; simpl.
  - destruct (fs_ReadDir qfs) as [e|entries]; simpl.
    + eexists _, _. split; [reflexivity|]. done.
    + destruct (loadAllStatements_loop drv entries db) as [errs db'] eqn:Hl.
      simpl. eexists _, _. split; [reflexivity|].
      apply loadAllStatements_loop_frame in Hl as (? & ? & ? & ? & ?).
      repeat split; congruence.
  - eexists _, _. split; [reflexivity|]. done.
Qed.

Lemma New_result (c : Conn Data) (opts : option Options) :
  let o := default defaultOptions opts in
  exists d errs,
    New drv (Some c) opts = Returned (Some d, errs)
    /\ versionFS d = VersionFS o /\ initFS d = InitFS o /\ queryFS d = QueryFS o
    /\ (forall vfs entries k,
          VersionFS o = Some vfs -> fs_ReadDir vfs = inr entries ->
          upgrades d !! k
          = Name <$> last (filter (fun e => is_upgrade_file k e = true) entries)
          /\ downgrades d !! k
             = Name <$> last (filter (fun e => is_downgrade_file k e = true) entries))
    /\ (VersionFS o = None -> upgrades d = ∅ /\ downgrades d = ∅).
Proof.
  intros o. unfold New. cbv zeta. fold o.
  match goal with
  | |- context [loadVersions ?d0] =>
      destruct (New_versions_stage_index d0)
        as (errs1 & d1 & -> & Hv1 & Hi1 & Hq1 & Hidx & Hnone)
  end.
  cbn [mbind outcome_bind].
  destruct (New_upgrade_stage_frame (MaxVersion o) d1)
    as (errs2 & d2 & -> & Hv2 & Hu2 & Hd2 & Hi2 & Hq2 & _).
  cbn [mbind outcome_bind].
  destruct (New_init_stage drv (NoPreload o) d2)
    as (errs3 & d3 & -> & (Hv3 & Hu3 & Hd3 & Hi3 & Hq3 & _) & _).
  cbn [mbind outcome_bind].
  destruct (New_preload_stage_frame (NoPreload o) d3)
    as (errs4 & d4 & -> & Hv4 & Hu4 & Hd4 & Hi4 & Hq4).
  cbn [mbind outcome_bind mret outcome_ret].
  eexists _, _. split; [reflexivity|].
  simpl in *.
  split; [congruence|]. split; [congruence|]. split; [congruence|]. split.
  - intros vfs entries k Hvfs Hdir.
    destruct (Hidx vfs entries k Hvfs Hdir) as [Hup Hdown].
    rewrite Hu4, Hu3, Hu2, Hd4, Hd3, Hd2, Hup, Hdown.
    rewrite !lookup_empty. by split; destruct (last _).
  - intros Hvfs. rewrite Hu4, Hu3, Hu2, Hd4, Hd3, Hd2, (Hnone Hvfs). done.
Qed.

(** X23.  [New] returns for every connection and every options, nil
    options included, and never panics: with a connection it returns a
    [DB], whatever errors its stages report, and that [DB] holds the file
    systems of the options; without a connection it returns no [DB] and
    an error. *)
Theorem New_returns_a_DB (c : Conn Data) (opts : option Options) :
  let o := default defaultOptions opts in
  (exists d errs,
     New drv (Some c) opts = Returned (Some d, errs)
     /\ versionFS d = VersionFS o /\ initFS d = InitFS o /\ queryFS d = QueryFS o)
  /\ New drv None opts = Returned (None, Some (Errorf MsgNilDB)).
Proof.
  intros o. split; [|done].
  destruct (New_result c opts) as (d & errs & H & Hv & Hi & Hq & _).
  by exists d, errs.
Qed.

(** X24.  The version index of the [DB] that [New] returns is the one that
    the listing of the version directory gives, whatever the migration,
    the initialization scripts and the preloading did afterwards: for each
    version the last upgrade file and the last downgrade file of the
    listing.  Without a version directory the index is empty. *)
Theorem New_index_is_the_listing (c : Conn Data) (opts : option Options) d errs :
  let o := default defaultOptions opts in
  New drv (Some c) opts = Returned (Some d, errs) ->
  (forall vfs entries k,
     VersionFS o = Some vfs -> fs_ReadDir vfs = inr entries ->
     upgrades d !! k
     = Name <$> last (filter (fun e => is_upgrade_file k e = true) entries)
     /\ downgrades d !! k
        = Name <$> last (filter (fun e => is_downgrade_file k e = true) entries))
  /\ (VersionFS o = None -> upgrades d = ∅ /\ downgrades d = ∅).
Proof.
  intros o H.
  destruct (New_result c opts) as (d' & errs' & H' & _ & _ & _ & Hidx & Hnone).
  rewrite H in H'. by simplify_eq.
Qed.

End ConstructorExtras.

(** ** Named statements inside a transaction *)

Section TxExtras.
Context {Data : Type}.
Variable drv : Driver Data.
Implicit Types db : DB Data.
Implicit Types t : Tx (Data := Data).

(** X25.  Inside a transaction a name is bound once: when [Tx.named]
    returns a statement, the statement is in the cache of the
    transaction, and every later call for that name returns the same
    statement without consulting or changing the [DB], whatever the [DB]
    holds by then. *)
Theorem Tx_named_binds_once name t db s t' db' :
  Tx_named drv name t db = Returned ((Some s, None), t', db') ->
  tx_statements t' !! name = Some s
  /\ forall db2, Tx_named drv name t' db2 = Returned ((Some s, None), t', db2).
Proof.
  intros H.
  assert (Hin : tx_statements t' !! name = Some s).
  { unfold Tx_named in H.
    destruct (tx_statements t !! name) as [s0|] eqn:Hs; [by simplify_eq|].
    destruct (named drv name db) as [[o [e|]] db1]; [by simplify_eq|].
    destruct (sqlTx_Stmt drv t o) as [s1| |];
      unfold mbind, outcome_bind, mret, outcome_ret in H; simplify_eq/=.
    apply lookup_insert_eq. }
  split; [done|]. intros db2. unfold Tx_named. by rewrite Hin.
Qed.

Ltac obind := unfold mbind, outcome_bind, mret, outcome_ret in *.

(** X26.  [Tx.named] never returns a nil statement together with a nil
    error.  It panics in exactly one case: the name is not bound in the
    transaction, the transaction is still open, and [DB.named] returns a
    nil statement with a nil error; on a finished transaction it returns
    a statement that carries [sql.ErrTxDone] instead. *)
Theorem Tx_named_panics_exactly_when name t db :
  (forall o t' db', Tx_named drv name t db = Returned ((o, None), t', db') ->
                    exists s, o = Some s)
  /\ (Tx_named drv name t db = Panicked
      <-> tx_statements t !! name = None /\ tx_done t = false
          /\ exists db', named drv name db = ((None, None), db'))
  /\ (tx_statements t !! name = None -> tx_done t = true ->
      forall o db', named drv name db = ((o, None), db') ->
        Tx_named drv name t db
        = Returned ((Some (TxSticky ErrTxDone), None),
                    with_tx_statements t
                      (<[name := TxSticky ErrTxDone]> (tx_statements t)), db'))
  /\ Tx_named drv name t db <> OutOfFuel.
Proof.
  unfold Tx_named, sqlTx_Stmt.
  destruct (tx_statements t !! name) as [s0|] eqn:Hs.
  { split; [intros ? ? ? [=]; eauto|]. split; [|done].
    split; [done | by intros [[=] _]]. }
  destruct (named drv name db) as [[o [e|]] db1] eqn:Hn.
  { split; [by intros ? ? ? [=]|]. split; [|done].
    split; [done | by intros (_ & _ & ? & [=])]. }
  destruct (tx_done t) eqn:Hd; simpl; obind.
  { split; [intros ? ? ? [=]; eauto|]. split; [|split; [|done]].
    - split; [done | by intros (_ & [=] & _)].
    - intros _ _ o' db' [= <- <-]. done. }
  destruct o as [st|]; simpl; obind.
  - destruct (drv_prepare_err _ _ _); simpl; obind.
    all: split; [intros ? ? ? [=]; eauto|]; split; [|done].
    all: split; [done | by intros (_ & _ & ? & [=])].
  - split; [by intros ? ? ? [=]|]. split; [|done].
    split; [intros _; eauto | done].
Qed.

(** X27.  A name that is not yet bound in the transaction is resolved
    through the statement cache of the [DB]: the [DB] is left exactly as
    [DB.named] leaves it, so what the lookup loads stays cached for later
    transactions.  The statement bound to an open transaction has the
    text of the statement of the [DB].  Binding one name leaves the other
    names bound in the transaction, and the transaction itself, as they
    were. *)
Theorem Tx_named_goes_through_the_DB_cache name t db r t' db' :
  tx_statements t !! name = None ->
  Tx_named drv name t db = Returned (r, t', db') ->
  db' = (named drv name db).2
  /\ tx_sql t' = tx_sql t /\ tx_done t' = tx_done t
  /\ (forall other, other <> name ->
        tx_statements t' !! other = tx_statements t !! other)
  /\ (forall q, r = (Some (TxBound q), None) ->
        exists st, (named drv name db).1 = (Some st, None) /\ stmt_sql st = q).
Proof.
  intros Hmiss H. unfold Tx_named in H. rewrite Hmiss in H.
  destruct (named drv name db) as [[o [e|]] db1] eqn:Hn; simpl.
  { simplify_eq. repeat split; try done; intros; by simplify_eq. }
  unfold sqlTx_Stmt in H.
  destruct (tx_done t) eqn:Hd; simpl in H; obind.
  { simplify_eq. repeat split; try done; intros; simplify_eq; simpl.
    all: by rewrite lookup_insert_ne. }
  destruct o as [st|]; [|done]. simpl in H.
  destruct (drv_prepare_err _ _ _); simpl in H; obind; simplify_eq.
  - repeat split; try done; intros; simplify_eq; simpl.
    all: by rewrite lookup_insert_ne.
  - repeat split; try done; intros; simplify_eq; simpl.
    all: first [by rewrite lookup_insert_ne | eauto].
Qed.

End TxExtras.

(** ** The further properties on concrete databases *)

Section ExtraExamples.
Import Demo Demo2 Lines Index GoStrings.
Local Open Scope list_scope.

Lemma gap_upgrade : Upgrade drv 0 gapDB = Returned ((2, None), gapDB2).
Proof. vm_compute. reflexivity. Defined.

Lemma down_downgrade : Downgrade drv 0 downDB = Returned ((1, None), downDB1).
Proof. vm_compute. reflexivity. Defined.

Lemma migration_keeps_cache_and_index_example :
  (Upgrade drv 0 gapDB = Returned ((2, None), gapDB2)
   \/ Downgrade drv 0 gapDB = Returned ((2, None), gapDB2))
  /\ same_but_conn gapDB gapDB2.
Proof.
  split; [left; exact gap_upgrade|].
  apply (migration_keeps_cache_and_index drv 0 gapDB (2, None) gapDB2
           (or_introl gap_upgrade)).
Defined.






Lemma Downgrade_sends_scripts_in_order_example :
  Downgrade drv 0 downDB = Returned ((1, None), downDB1)
  /\ executed (conn downDB1)
     = executed (conn downDB)
       ++ downgrade_cmds downDB (downto (user_version (committed (conn downDB))) 1)
  /\ downgrade_cmds downDB (downto 3 1)
     = [SqlText "DROP TABLE c"; PragmaUserVersion 2;
        SqlText "DROP TABLE b"; PragmaUserVersion 1].
Proof.
  split; [exact down_downgrade|]. split; [|reflexivity].
  apply (Downgrade_sends_scripts_in_order drv 0 downDB 1 downDB1 down_downgrade).
Defined.

Lemma missing_script_stops_quietly_example :
  versionFS ghostDB = Some gapFS
  /\ fs_find "3.up.sql" (fs_nodes gapFS) = None
  /\ upgrades ghostDB !! 3 = Some "3.up.sql"
  /\ runFileAndSetVersion drv "3.up.sql" 3 ghostDB
     = Returned (Some (Errorfw (MsgOpenSQL "3.up.sql")
                         (PathError "open" "3.up.sql" ErrNotExist)), ghostDB)
  /\ Upgrade drv 0 ghostDB = Returned ((2, None), ghostDB).
Proof.
  split; [reflexivity|]. split; [reflexivity|]. split; [reflexivity|].
  destruct (missing_script_stops_quietly drv "3.up.sql" 3 ghostDB gapFS
              eq_refl eq_refl) as (Hrun & Hup & _).
  split; [exact Hrun|].
  apply (Hup 0); reflexivity.
Defined.

Lemma gap_run2 : upgrade_run drv2 0 gapDB gapDB2.
Proof.
  eapply (upgrade_run_cons drv2 0 gapDB gapDB1 gapDB2 0 "1.up.sql");
    [reflexivity | lia | reflexivity | econstructor; reflexivity |].
  eapply (upgrade_run_cons drv2 0 gapDB1 gapDB2 gapDB2 1 "2.up.sql");
    [reflexivity | lia | reflexivity | econstructor; reflexivity |].
  apply upgrade_run_nil.
Defined.

Lemma unreadable_version_reports_zero_example :
  drv_get_version_err drv2 (committed (conn gapDB2)) = Some "database is locked"
  /\ upgrade_run drv2 0 gapDB gapDB2
  /\ Upgrade drv2 0 gapDB
     = Returned ((0, Some (Errorfw MsgQueryVersion (ErrDriver "database is locked"))),
                 gapDB2).
Proof.
  split; [reflexivity|]. split; [exact gap_run2|].
  destruct (unreadable_version_reports_zero drv2 0 gapDB gapDB2
              "database is locked" eq_refl) as [Hup _].
  exact (Hup gap_run2).
Defined.


Lemma loadVersions_last_file_wins_example :
  versionFS dupDB = Some dupFS
  /\ fs_ReadDir dupFS = inr dupEntries
  /\ exists db',
       loadVersions dupDB = Returned ([], db')
       /\ upgrades db' !! 1
          = match last (filter (fun e => is_upgrade_file 1 e = true) dupEntries) with
            | Some e => Some (Name e)
            | None => upgrades dupDB !! 1
            end
       /\ downgrades db' !! 1
          = match last (filter (fun e => is_downgrade_file 1 e = true) dupEntries) with
            | Some e => Some (Name e)
            | None => downgrades dupDB !! 1
            end.
Proof.
  split; [reflexivity|]. split; [reflexivity|].
  apply (loadVersions_last_file_wins dupDB dupFS dupEntries 1 eq_refl eq_refl).
Defined.

Lemma loadVersions_adds_positive_versions_example :
  versionFS dupDB = Some dupFS
  /\ fs_ReadDir dupFS = inr dupEntries
  /\ loadVersions dupDB = Returned ([], dupIndexed)
  /\ upgrades dupIndexed !! 2 = Some "2.up.down.sql"
  /\ upgrades dupDB !! 2 <> Some "2.up.down.sql"
  /\ 0 < 2 <= GoStrconv.maxInt
  /\ exists e, e ∈ dupEntries /\ Name e = "2.up.down.sql" /\ IsDir e = false
               /\ vnum_of e = 2.
Proof.
  assert (Hload : loadVersions dupDB = Returned ([], dupIndexed)).
  { vm_compute. reflexivity. }
  assert (Hold : upgrades dupDB !! 2 <> Some "2.up.down.sql") by discriminate.
  split; [reflexivity|]. split; [reflexivity|]. split; [exact Hload|].
  split; [reflexivity|]. split; [exact Hold|].
  apply (loadVersions_adds_positive_versions dupDB dupFS dupEntries dupIndexed []
           2 "2.up.down.sql" eq_refl eq_refl Hload
           (or_introl (conj eq_refl Hold))).
Defined.

Lemma two_load : loadStatements drv "two" queryDB = (None, twoDB).
Proof. vm_compute. reflexivity. Defined.

Lemma loadStatements_prepares_fragments_in_order_example :
  exists f,
    queryFS queryDB = Some queryFS1
    /\ FS_Open queryFS1 "two.sql" = inr f
    /\ GoBufio.Scan f = (two_text, None)
    /\ file_fragments two_text = [("a", ["SELECT 1"], 3); ("b", ["SELECT 2"], 4)]
    /\ loadStatements drv "two" queryDB
       = prepare_all drv "two" "two.sql" (file_fragments two_text) queryDB.
Proof.
  eexists.
  split; [reflexivity|]. split; [reflexivity|]. split; [reflexivity|].
  split; [reflexivity|].
  apply (loadStatements_prepares_fragments_in_order drv "two" queryDB queryFS1 _
           two_text eq_refl eq_refl eq_refl).
Defined.

Lemma loadStatements_only_adds_own_names_example :
  loadStatements drv "two" queryDB = (None, twoDB)
  /\ conn twoDB = conn queryDB
  /\ (forall q, is_Some (statements queryDB !! q) -> is_Some (statements twoDB !! q))
  /\ (forall q s, statements twoDB !! q = Some s ->
        statements queryDB !! q = Some s
        \/ q = "two"
        \/ exists sub, sub <> EmptyString /\ q = ("two" ++ "." ++ sub)%string).
Proof.
  split; [exact two_load|].
  apply (loadStatements_only_adds_own_names drv "two" queryDB None twoDB two_load).
Defined.

Lemma marker_sub_name_is_a_word_example :
  name_line "-- NAME:  top users" = Some "top"
  /\ "top" <> EmptyString
  /\ Forall (fun c => rx_space c = false) (list_ascii_of_string "top")
  /\ sql_line "-- NAME:  top users" = false
  /\ blank_line "-- NAME:  top users" = false.
Proof.
  split; [reflexivity|].
  apply (marker_sub_name_is_a_word "-- NAME:  top users" "top" eq_refl).
Defined.

Lemma named_second_call_hits_example :
  named drv "one" queryDB = ((Some {| stmt_sql := oneSql |}, None), oneDB)
  /\ statements oneDB !! "one" = Some {| stmt_sql := oneSql |}
  /\ named drv "one" oneDB = ((Some {| stmt_sql := oneSql |}, None), oneDB).
Proof.
  assert (H : named drv "one" queryDB
              = ((Some {| stmt_sql := oneSql |}, None), oneDB)).
  { vm_compute. reflexivity. }
  split; [exact H|].
  apply (named_second_call_hits drv "one" queryDB _ oneDB H).
Defined.


Lemma preload_one_error_per_file_example :
  exists entries errs db',
    queryFS queryDB = Some queryFS1
    /\ fs_ReadDir queryFS1 = inr entries
    /\ loadAllStatements drv queryDB = Returned (errs, db')
    /\ length errs = 2%nat
    /\ length (filter (fun e => is_sql_file e = true) entries) = 5%nat
    /\ (length errs <= length (filter (fun e => is_sql_file e = true) entries))%nat
    /\ conn db' = conn queryDB
    /\ (forall q, is_Some (statements queryDB !! q) -> is_Some (statements db' !! q)).
Proof.
  eexists _, _, _.
  split; [reflexivity|]. split; [reflexivity|].
  match goal with
  | |- ?A /\ _ => assert (H : A) by (vm_compute; reflexivity)
  end.
  split; [exact H|]. split; [reflexivity|]. split; [reflexivity|].
  apply (preload_one_error_per_file drv queryDB queryFS1 _ _ _ eq_refl eq_refl H).
Defined.


Lemma New_index_is_the_listing_example :
  New drv (Some (fresh 0)) (Some dupOpts) = Returned (Some dupIndexed, None)
  /\ (forall vfs entries k,
        Some dupFS = Some vfs -> fs_ReadDir vfs = inr entries ->
        upgrades dupIndexed !! k
        = Name <$> last (filter (fun e => is_upgrade_file k e = true) entries)
        /\ downgrades dupIndexed !! k
           = Name <$> last (filter (fun e => is_downgrade_file k e = true) entries))
  /\ (Some dupFS = None -> upgrades dupIndexed = ∅ /\ downgrades dupIndexed = ∅).
Proof.
  assert (H : New drv (Some (fresh 0)) (Some dupOpts)
              = Returned (Some dupIndexed, None)).
  { vm_compute. reflexivity. }
  split; [exact H|].
  apply (New_index_is_the_listing drv (fresh 0) (Some dupOpts) dupIndexed None H).
Defined.

Lemma one_bound :
  Tx_named drv "one" tx0 queryDB
  = Returned ((Some (TxBound oneSql), None), tx1, oneDB).
Proof. vm_compute. reflexivity. Defined.

Lemma Tx_named_binds_once_example :
  Tx_named drv "one" tx0 queryDB
  = Returned ((Some (TxBound oneSql), None), tx1, oneDB)
  /\ tx_statements tx1 !! "one" = Some (TxBound oneSql)
  /\ forall db2,
       Tx_named drv "one" tx1 db2 = Returned ((Some (TxBound oneSql), None), tx1, db2).
Proof.
  split; [exact one_bound|].
  apply (Tx_named_binds_once drv "one" tx0 queryDB _ tx1 oneDB one_bound).
Defined.

Lemma Tx_named_panics_exactly_when_example :
  Tx_named drv "two" tx0 queryDB = Panicked
  /\ named drv "two" queryDB = ((None, None), twoDB)
  /\ Tx_named drv "two" txDone queryDB
     = Returned ((Some (TxSticky ErrTxDone), None),
                 with_tx_statements txDone
                   (<["two" := TxSticky ErrTxDone]> (tx_statements txDone)), twoDB).
Proof.
  assert (Hn : named drv "two" queryDB = ((None, None), twoDB)).
  { vm_compute. reflexivity. }
  destruct (Tx_named_panics_exactly_when drv "two" tx0 queryDB)
    as (_ & [_ Hpanic] & _).
  destruct (Tx_named_panics_exactly_when drv "two" txDone queryDB)
    as (_ & _ & Hdone & _).
  split; [apply Hpanic; split; [reflexivity | split; [reflexivity | by exists twoDB]]|].
  split; [exact Hn|].
  apply (Hdone eq_refl eq_refl None twoDB Hn).
Defined.

Lemma Tx_named_goes_through_the_DB_cache_example :
  tx_statements tx0 !! "one" = None
  /\ Tx_named drv "one" tx0 queryDB
     = Returned ((Some (TxBound oneSql), None), tx1, oneDB)
  /\ oneDB = (named drv "one" queryDB).2
  /\ tx_sql tx1 = tx_sql tx0 /\ tx_done tx1 = tx_done tx0
  /\ (forall other, other <> "one" ->
        tx_statements tx1 !! other = tx_statements tx0 !! other)
  /\ (forall q, (Some (TxBound oneSql), @None error) = (Some (TxBound q), None) ->
        exists st, (named drv "one" queryDB).1 = (Some st, None) /\ stmt_sql st = q).
Proof.
  split; [reflexivity|]. split; [exact one_bound|].
  apply (Tx_named_goes_through_the_DB_cache drv "one" tx0 queryDB _ tx1 oneDB
           eq_refl one_bound).
Defined.

End ExtraExamples.
